(** * The progressive frameloop of the canvas renderer

    A shallow embedding of
    [packages/renderer/src/features/canvas/use-progressive-frameloop.tsx]:
    the three [useRef] cells of the hook, the callbacks it builds, and the
    part of the host it talks to (the timer queue behind [setTimeout] and
    [clearTimeout], the listeners of [window], the subscriptions of the
    bridge and the [invalidate] capability of the canvas).

    JavaScript runs every callback to completion, so a callback is a
    function from worlds to worlds, written in a small state monad. *)

From Stdlib Require Import ZArith List Bool String Lia.
Import ListNotations.
Local Open Scope string_scope.
Local Open Scope list_scope.
Local Open Scope Z_scope.

(** ** The host *)

(** What [setTimeout] returns.  In a browser this is an integer greater than
    zero and in Node a [Timeout] object: both are truthy, which is what the
    test [if (timerRef.current)] of [clearTimer] looks at. *)
Definition handle := positive.

(** An entry of the timer queue of the host: the handle it was given, the
    delay it was armed with and the instant it becomes due. *)
Record timer := mkTimer {
  t_handle : handle;
  t_delay : Z;
  t_due : Z
}.

(** The calls the hook makes to the outside, in the order it makes them. *)
Inductive effect :=
| Invalidate
| SetTimeout (h : handle) (ms : Z)
| ClearTimeout (h : handle).

(** The closures the effect hands to the host as listeners. *)
Inductive callback :=
| HandleFocus
| HandleBlur
| HandleUserInteraction
| OnResetErrorBoundary.

Definition callback_eqb (a b : callback) : bool :=
  match a, b with
  | HandleFocus, HandleFocus => true
  | HandleBlur, HandleBlur => true
  | HandleUserInteraction, HandleUserInteraction => true
  | OnResetErrorBoundary, OnResetErrorBoundary => true
  | _, _ => false
  end.

(** ** The world: the refs of the hook and the state of the host *)

Record world := mkWorld {
  timerRef : option handle;            (* useRef<NodeJS.Timeout | null>(null) *)
  intervalIndexRef : Z;                (* useRef(0) *)
  isActiveRef : bool;                  (* useRef(true) *)
  now : Z;                             (* the clock of the host, in ms *)
  next_handle : handle;                (* the next handle setTimeout gives *)
  timers : list timer;                 (* armed timers, not yet fired *)
  window_listeners : list (string * callback);
  bridge_listeners : list (string * callback);
  log : list effect;                   (* calls made so far, oldest first *)
  peak : nat                           (* ghost: most timers ever armed at once *)
}.

Definition set_timerRef (v : option handle) (w : world) : world :=
  mkWorld v (intervalIndexRef w) (isActiveRef w) (now w) (next_handle w)
          (timers w) (window_listeners w) (bridge_listeners w) (log w) (peak w).

Definition set_intervalIndexRef (v : Z) (w : world) : world :=
  mkWorld (timerRef w) v (isActiveRef w) (now w) (next_handle w)
          (timers w) (window_listeners w) (bridge_listeners w) (log w) (peak w).

Definition set_isActiveRef (v : bool) (w : world) : world :=
  mkWorld (timerRef w) (intervalIndexRef w) v (now w) (next_handle w)
          (timers w) (window_listeners w) (bridge_listeners w) (log w) (peak w).

Definition set_now (v : Z) (w : world) : world :=
  mkWorld (timerRef w) (intervalIndexRef w) (isActiveRef w) v (next_handle w)
          (timers w) (window_listeners w) (bridge_listeners w) (log w) (peak w).

Definition set_timers (v : list timer) (w : world) : world :=
  mkWorld (timerRef w) (intervalIndexRef w) (isActiveRef w) (now w)
          (next_handle w) v (window_listeners w) (bridge_listeners w) (log w)
          (peak w).

Definition set_window_listeners (v : list (string * callback)) (w : world)
  : world :=
  mkWorld (timerRef w) (intervalIndexRef w) (isActiveRef w) (now w)
          (next_handle w) (timers w) v (bridge_listeners w) (log w) (peak w).

Definition set_bridge_listeners (v : list (string * callback)) (w : world)
  : world :=
  mkWorld (timerRef w) (intervalIndexRef w) (isActiveRef w) (now w)
          (next_handle w) (timers w) (window_listeners w) v (log w) (peak w).

Definition emit (e : effect) (w : world) : world :=
  mkWorld (timerRef w) (intervalIndexRef w) (isActiveRef w) (now w)
          (next_handle w) (timers w) (window_listeners w) (bridge_listeners w)
          (log w ++ [e]) (peak w).

(** ** A state monad over worlds *)

Definition M (A : Type) : Type := world -> A * world.

Definition ret {A} (a : A) : M A := fun w => (a, w).

Definition bind {A B} (m : M A) (k : A -> M B) : M B :=
  fun w => let (a, w1) := m w in k a w1.

Definition read {A} (f : world -> A) : M A := fun w => (f w, w).

Definition modify (f : world -> world) : M unit := fun w => (tt, f w).

Definition exec {A} (m : M A) (w : world) : world := snd (m w).

Declare Scope frameloop_scope.
Delimit Scope frameloop_scope with fl.
Notation "x <- m ;; k" := (bind m (fun x => k))
  (at level 61, m at next level, right associativity) : frameloop_scope.
Notation "m ;; k" := (bind m (fun _ => k))
  (at level 61, right associativity) : frameloop_scope.
Local Open Scope frameloop_scope.

(** [array.forEach(f)] *)
Fixpoint forEach {A} (l : list A) (f : A -> M unit) : M unit :=
  match l with
  | [] => ret tt
  | x :: l' => f x ;; forEach l' f
  end.

(** ** The host's operations *)

(** [setTimeout(callback, ms)]: a fresh handle, a new entry in the queue,
    due [ms] after the present instant.  The only callback the hook ever arms
    is the one of [scheduleNextRender], so the entry does not name it. *)
Definition setTimeout (ms : Z) : M handle := fun w =>
  let h := next_handle w in
  let q := timers w ++ [mkTimer h ms (now w + ms)] in
  (h, mkWorld (timerRef w) (intervalIndexRef w) (isActiveRef w) (now w)
              (Pos.succ h) q (window_listeners w) (bridge_listeners w)
              (log w ++ [SetTimeout h ms]) (Nat.max (peak w) (List.length q))).

Definition other_handle (h : handle) (t : timer) : bool :=
  negb (Pos.eqb (t_handle t) h).

(** [clearTimeout(h)]: the entry of [h] leaves the queue; nothing happens
    when [h] has fired or was cleared already. *)
Definition clearTimeout (h : handle) : M unit := fun w =>
  (tt, emit (ClearTimeout h) (set_timers (filter (other_handle h) (timers w)) w)).

(** [invalidate()] of [useThree()]: asks the canvas for one frame. *)
Definition invalidate : M unit := modify (emit Invalidate).

Definition same_listener (type : string) (cb : callback)
  (l : string * callback) : bool :=
  String.eqb (fst l) type && callback_eqb (snd l) cb.

(** [window.addEventListener(type, cb)]: a listener already present is not
    added a second time. *)
Definition addEventListener (type : string) (cb : callback) : M unit :=
  fun w =>
    (tt, if existsb (same_listener type cb) (window_listeners w) then w
         else set_window_listeners (window_listeners w ++ [(type, cb)]) w).

(** [window.removeEventListener(type, cb)]: a listener is found by its type
    and its callback; the [passive] option it was added with plays no part. *)
Definition removeEventListener (type : string) (cb : callback) : M unit :=
  fun w =>
    (tt, set_window_listeners
           (filter (fun l => negb (same_listener type cb l))
                   (window_listeners w)) w).

(** Modelled from the spec: [on] of [@triplex/bridge/client] and the
    function it returns are not among the sources.  The spec has the
    external reset notification as one named channel the hook consumes, and
    teardown as detaching every subscription: [on] records the subscription,
    the function it returns removes it. *)
Definition on (name : string) (cb : callback) : M unit := fun w =>
  (tt, set_bridge_listeners (bridge_listeners w ++ [(name, cb)]) w).

(** Modelled from the spec: the function [on] returns, which the cleanup
    calls as [unsubscribeHMR]; it takes the subscription away again. *)
Definition off (name : string) (cb : callback) : M unit := fun w =>
  (tt, set_bridge_listeners
         (filter (fun l => negb (same_listener name cb l))
                 (bridge_listeners w)) w).

(** ** The hook *)

Definition PROGRESSIVE_INTERVALS : list Z :=
  [16; 16; 33; 66; 133; 266; 533; 1000].

(** [a[i]] on a JavaScript array of numbers: [undefined] outside the array. *)
Definition array_get (a : list Z) (i : Z) : option Z :=
  if i <? 0 then None else nth_error a (Z.to_nat i).

(** [x || d] where [x] is a number or [undefined]: [undefined] and [0] are
    falsy. *)
Definition or_default (x : option Z) (d : Z) : Z :=
  match x with
  | Some v => if v =? 0 then d else v
  | None => d
  end.

(** [PROGRESSIVE_INTERVALS.length - 1] *)
Definition last_index : Z := Z.of_nat (List.length PROGRESSIVE_INTERVALS) - 1.

(** [PROGRESSIVE_INTERVALS[intervalIndexRef.current] || 1000] *)
Definition currentInterval (i : Z) : Z :=
  or_default (array_get PROGRESSIVE_INTERVALS i) 1000.

Definition clearTimer : M unit :=
  r <- read timerRef ;;
  match r with
  | Some h => clearTimeout h ;; modify (set_timerRef None)
  | None => ret tt
  end.

(** The part of [scheduleNextRender] that runs at once: the timer is
    cleared, the interval read and the next timer armed. *)
Definition scheduleNextRender : M unit :=
  clearTimer ;;
  i <- read intervalIndexRef ;;
  h <- setTimeout (currentInterval i) ;;
  modify (set_timerRef (Some h)).

(** The closure [scheduleNextRender] passes to [setTimeout]; the host runs
    it when the timer fires. *)
Definition timer_callback : M unit :=
  invalidate ;;
  i <- read intervalIndexRef ;;
  (if i <? last_index then modify (set_intervalIndexRef (i + 1)) else ret tt) ;;
  scheduleNextRender.

Definition resetToFastRendering : M unit :=
  modify (set_intervalIndexRef 0) ;;
  modify (set_isActiveRef true) ;;
  clearTimer ;;
  scheduleNextRender ;;
  invalidate.

Definition handleFocus : M unit := resetToFastRendering.

Definition handleBlur : M unit := modify (set_isActiveRef false).

Definition handleUserInteraction : M unit :=
  a <- read isActiveRef ;;
  i <- read intervalIndexRef ;;
  if negb a || (0 <? i) then resetToFastRendering else ret tt.

Definition interactionEvents : list string :=
  ["mousemove"; "mousedown"; "mouseup"; "wheel"; "keydown"; "touchstart";
   "touchmove"].

Definition reset_channel : string := "self:request-reset-error-boundary".

Definition unsubscribeHMR : M unit := off reset_channel OnResetErrorBoundary.

(** The body of the effect. *)
Definition effect_setup : M unit :=
  scheduleNextRender ;;
  on reset_channel OnResetErrorBoundary ;;
  addEventListener "focus" HandleFocus ;;
  addEventListener "blur" HandleBlur ;;
  forEach interactionEvents
    (fun event => addEventListener event HandleUserInteraction).

(** The function the effect returns. *)
Definition effect_cleanup : M unit :=
  clearTimer ;;
  unsubscribeHMR ;;
  removeEventListener "focus" HandleFocus ;;
  removeEventListener "blur" HandleBlur ;;
  forEach interactionEvents
    (fun event => removeEventListener event HandleUserInteraction).

Definition run_callback (cb : callback) : M unit :=
  match cb with
  | HandleFocus => handleFocus
  | HandleBlur => handleBlur
  | HandleUserInteraction => handleUserInteraction
  | OnResetErrorBoundary => resetToFastRendering
  end.

(** ** Turns of the event loop *)

(** What can happen between two turns, seen from the hook: time passes, the
    host fires a timer that is due, an event reaches [window], a message
    reaches the bridge, React runs the cleanup of the effect. *)
Inductive event :=
| Elapse (dt : Z)
| TimerFire (h : handle)
| WindowEvent (type : string)
| BridgeEvent (name : string)
| Unmount.

(** The listeners registered for [type] run in the order they were added. *)
Definition dispatch (type : string) (ls : list (string * callback)) : M unit :=
  forEach (filter (fun l => String.eqb (fst l) type) ls)
          (fun l => run_callback (snd l)).

(** One turn.  [None] when the host cannot take it: time does not run
    backwards, and a timer fires only while armed and not before it is due;
    firing takes the timer out of the queue, then its callback runs. *)
Definition step (e : event) (w : world) : option world :=
  match e with
  | Elapse dt =>
      if 0 <=? dt then Some (set_now (now w + dt) w) else None
  | TimerFire h =>
      match find (fun t => Pos.eqb (t_handle t) h) (timers w) with
      | Some t =>
          if t_due t <=? now w
          then Some (exec timer_callback
                       (set_timers (filter (other_handle h) (timers w)) w))
          else None
      | None => None
      end
  | WindowEvent type => Some (exec (dispatch type (window_listeners w)) w)
  | BridgeEvent name => Some (exec (dispatch name (bridge_listeners w)) w)
  | Unmount => Some (exec effect_cleanup w)
  end.

Fixpoint run (es : list event) (w : world) : option world :=
  match es with
  | [] => Some w
  | e :: es' =>
      match step e w with
      | Some w' => run es' w'
      | None => None
      end
  end.

(** The world when the component renders for the first time at instant
    [t0]: the initial values of the refs, nothing armed, nobody listening. *)
Definition initial (t0 : Z) : world :=
  mkWorld None 0 true t0 1%positive [] [] [] [] 0%nat.

(** The world once the effect has run. *)
Definition mounted (t0 : Z) : world := exec effect_setup (initial t0).

Inductive reachable : world -> Prop :=
| reach_mounted t0 : reachable (mounted t0)
| reach_step e w w' : reachable w -> step e w = Some w' -> reachable w'.

(** *** Turns without an activity signal *)

Inductive quiet :=
| QFire     (* the clock reaches the pending timer and the host fires it *)
| QBlur.    (* the window loses focus *)

(** The host waits for the timer at the head of the queue and fires it;
    the result carries the delay that timer had been armed with. *)
Definition await_fire (w : world) : option (Z * world) :=
  match timers w with
  | t :: _ =>
      match run [Elapse (Z.max 0 (t_due t - now w)); TimerFire (t_handle t)] w
      with
      | Some w' => Some (t_delay t, w')
      | None => None
      end
  | [] => None
  end.

(** The delays of the timers fired along a quiet run, oldest first. *)
Fixpoint run_quiet (qs : list quiet) (w : world) : option (list Z * world) :=
  match qs with
  | [] => Some ([], w)
  | QFire :: qs' =>
      match await_fire w with
      | Some (d, w') =>
          match run_quiet qs' w' with
          | Some (ds, w'') => Some (d :: ds, w'')
          | None => None
          end
      | None => None
      end
  | QBlur :: qs' =>
      match step (WindowEvent "blur") w with
      | Some w' => run_quiet qs' w'
      | None => None
      end
  end.

Definition fires (qs : list quiet) : nat :=
  List.length (filter (fun q => match q with QFire => true | QBlur => false end) qs).

(** The turns in which no signal arrives: time passes or a timer fires. *)
Definition timer_turn (e : event) : bool :=
  match e with
  | Elapse _ | TimerFire _ => true
  | _ => false
  end.

(** ** Observations *)

Definition is_invalidate (e : effect) : bool :=
  match e with Invalidate => true | _ => false end.

(** How many redraws have been requested so far. *)
Definition redraws (w : world) : nat :=
  List.length (filter is_invalidate (log w)).

(** The timers left once [clearTimer] has run, and the calls it makes. *)
Definition released (w : world) : list timer :=
  match timerRef w with
  | Some h => filter (other_handle h) (timers w)
  | None => timers w
  end.

Definition release_calls (w : world) : list effect :=
  match timerRef w with
  | Some h => [ClearTimeout h]
  | None => []
  end.

(** What is left of a pending timer when its handle is set aside. *)
Definition pending_view (t : timer) : Z * Z := (t_delay t, t_due t).

(** The cursor after a fire that found it at [i]. *)
Definition advance (i : Z) : Z := if i <? last_index then i + 1 else i.

(** The timer [scheduleNextRender] arms in [w] for the cursor [i]. *)
Definition armed (w : world) (i : Z) : timer :=
  mkTimer (next_handle w) (currentInterval i) (now w + currentInterval i).

(** The delay of the Nth fire as the specification gives it:
    [table[min(N-1, table.length-1)]], counting fires from 1. *)
Definition spec_nth_delay (N : nat) : Z :=
  nth (Nat.min (N - 1) (List.length PROGRESSIVE_INTERVALS - 1))
      PROGRESSIVE_INTERVALS 0.

(** *** Accounting *)

Definition is_arm (e : effect) : bool :=
  match e with SetTimeout _ _ => true | _ => false end.

Definition is_clear (e : effect) : bool :=
  match e with ClearTimeout _ => true | _ => false end.

(** How many timers have been armed, and how many cleared, so far. *)
Definition arms (w : world) : nat := List.length (filter is_arm (log w)).

Definition clears (w : world) : nat := List.length (filter is_clear (log w)).

(** The delay of a call to [setTimeout] is an entry of the table. *)
Definition table_delay (e : effect) : Prop :=
  match e with
  | SetTimeout _ ms => In ms PROGRESSIVE_INTERVALS
  | _ => True
  end.

(** The instant a pending timer was armed at. *)
Definition armed_at (t : timer) : Z := t_due t - t_delay t.

Definition sum_delays (ds : list Z) : Z := fold_right Z.add 0 ds.

(** The types of event the effect listens to on [window]. *)
Definition listened (type : string) : bool :=
  String.eqb "focus" type || String.eqb "blur" type
  || existsb (fun ev => String.eqb ev type) interactionEvents.

(** The signals that count as activity: focus, the interaction events and
    a message on the reset channel. *)
Definition activity_signal (e : event) : bool :=
  match e with
  | WindowEvent type =>
      String.eqb "focus" type
      || existsb (fun ev => String.eqb ev type) interactionEvents
  | BridgeEvent name => String.eqb reset_channel name
  | _ => false
  end.

(** The listeners the cleanup takes off [window], in the order it does. *)
Definition cleanup_removals : list (string * callback) :=
  ("focus", HandleFocus) :: ("blur", HandleBlur)
  :: map (fun ev => (ev, HandleUserInteraction)) interactionEvents.

(** Whether a listener is one of those the cleanup removes. *)
Definition hook_listener (l : string * callback) : bool :=
  existsb (fun r => same_listener (fst r) (snd r) l) cleanup_removals.

Definition hook_subscription (l : string * callback) : bool :=
  same_listener reset_channel OnResetErrorBoundary l.

(** ** Invariants *)

Definition cursor_ok (w : world) : Prop :=
  0 <= intervalIndexRef w <= last_index.

(** The queue holds nothing the hook has lost track of. *)
Definition owned (w : world) : Prop :=
  timers w = [] \/ exists t, timers w = [t] /\ timerRef w = Some (t_handle t).

(** The listeners the effect registers are in place. *)
Definition listening (w : world) : Prop :=
  window_listeners w = window_listeners (mounted 0) /\
  bridge_listeners w = bridge_listeners (mounted 0).

(** Exactly one timer is armed, the hook holds its handle and its delay is
    the interval of the cursor. *)
Definition armed_one (w : world) : Prop :=
  exists t, timers w = [t] /\ timerRef w = Some (t_handle t) /\
            t_delay t = currentInterval (intervalIndexRef w).

(** Between mount and cleanup. *)
Definition live (w : world) : Prop := listening w /\ armed_one w.

(** After cleanup. *)
Definition torn_down (w : world) : Prop :=
  window_listeners w = [] /\ bridge_listeners w = [] /\
  timers w = [] /\ timerRef w = None.

(** A live world in which the cursor is in range and no two timers were ever
    armed together. *)
Definition steady (w : world) : Prop :=
  cursor_ok w /\ (peak w <= 1)%nat /\ live w.

Definition inv (w : world) : Prop :=
  cursor_ok w /\ (peak w <= 1)%nat /\ (live w \/ torn_down w).

(** * Equations of the callbacks *)

Lemma exec_bind {A B} (m : M A) (k : A -> M B) (w : world) :
  exec (bind m k) w = exec (k (fst (m w))) (exec m w).
Proof. unfold exec, bind. destruct (m w); reflexivity. Qed.

Lemma forEach_preserves {A} (P : world -> Prop) (f : A -> M unit) :
  (forall x w, P w -> P (exec (f x) w)) ->
  forall l w, P w -> P (exec (forEach l f) w).
Proof.
  intros Hf l. induction l as [|x l IH]; intros w Hw.
  - exact Hw.
  - cbn [forEach]. rewrite exec_bind. apply IH, Hf, Hw.
Qed.

Ltac world_cases w :=
  destruct w as [r i a t n q wl bl lg p]; destruct r as [h|];
  cbv [exec bind read ret modify fst snd released release_calls armed
       timerRef intervalIndexRef isActiveRef now next_handle timers
       window_listeners bridge_listeners log peak
       set_timerRef set_intervalIndexRef set_isActiveRef set_timers emit
       invalidate clearTimeout setTimeout clearTimer scheduleNextRender].

Lemma exec_clearTimer (w : world) :
  exec clearTimer w =
  mkWorld None (intervalIndexRef w) (isActiveRef w) (now w) (next_handle w)
          (released w) (window_listeners w) (bridge_listeners w)
          (log w ++ release_calls w) (peak w).
Proof. world_cases w; rewrite ?app_nil_r; reflexivity. Qed.

Lemma exec_scheduleNextRender (w : world) :
  exec scheduleNextRender w =
  mkWorld (Some (next_handle w)) (intervalIndexRef w) (isActiveRef w) (now w)
          (Pos.succ (next_handle w))
          (released w ++ [armed w (intervalIndexRef w)])
          (window_listeners w) (bridge_listeners w)
          (log w ++ release_calls w ++
             [SetTimeout (next_handle w) (currentInterval (intervalIndexRef w))])
          (Nat.max (peak w)
                   (List.length (released w ++ [armed w (intervalIndexRef w)]))).
Proof. world_cases w; rewrite <- ?app_assoc; reflexivity. Qed.

Lemma exec_timer_callback (w : world) :
  exec timer_callback w =
  mkWorld (Some (next_handle w)) (advance (intervalIndexRef w)) (isActiveRef w)
          (now w) (Pos.succ (next_handle w))
          (released w ++ [armed w (advance (intervalIndexRef w))])
          (window_listeners w) (bridge_listeners w)
          (log w ++ Invalidate :: release_calls w ++
             [SetTimeout (next_handle w)
                         (currentInterval (advance (intervalIndexRef w)))])
          (Nat.max (peak w)
             (List.length
                (released w ++ [armed w (advance (intervalIndexRef w))]))).
Proof.
  unfold timer_callback, advance.
  world_cases w; destruct (i <? last_index);
    cbv [exec bind read ret modify fst snd set_intervalIndexRef
         timerRef intervalIndexRef isActiveRef now next_handle timers
         window_listeners bridge_listeners log peak];
    rewrite <- ?app_assoc; reflexivity.
Qed.

Lemma exec_resetToFastRendering (w : world) :
  exec resetToFastRendering w =
  mkWorld (Some (next_handle w)) 0 true (now w) (Pos.succ (next_handle w))
          (released w ++ [armed w 0])
          (window_listeners w) (bridge_listeners w)
          (log w ++ release_calls w ++
             [SetTimeout (next_handle w) (currentInterval 0); Invalidate])
          (Nat.max (peak w) (List.length (released w ++ [armed w 0]))).
Proof.
  unfold resetToFastRendering.
  world_cases w; rewrite <- ?app_assoc; reflexivity.
Qed.

Lemma exec_handleBlur (w : world) :
  exec handleBlur w = set_isActiveRef false w.
Proof. reflexivity. Qed.

Lemma exec_handleUserInteraction (w : world) :
  exec handleUserInteraction w =
  if negb (isActiveRef w) || (0 <? intervalIndexRef w)
  then exec resetToFastRendering w else w.
Proof.
  unfold handleUserInteraction, exec, bind, read, ret; cbn.
  destruct (negb (isActiveRef w) || (0 <? intervalIndexRef w)); reflexivity.
Qed.

(** * The invariants hold in every reachable world *)

Lemma last_index_eq : last_index = 7.
Proof. reflexivity. Qed.

Lemma advance_in_range (i : Z) :
  0 <= i <= last_index -> 0 <= advance i <= last_index.
Proof.
  unfold advance. destruct (Z.ltb_spec i last_index); lia.
Qed.

Lemma other_handle_self (t : timer) : other_handle (t_handle t) t = false.
Proof. unfold other_handle. now rewrite Pos.eqb_refl. Qed.

Lemma released_owned (w : world) : owned w -> released w = [].
Proof.
  unfold owned, released.
  intros [E | [t [E R]]]; rewrite E.
  - now destruct (timerRef w).
  - rewrite R. cbn. now rewrite other_handle_self.
Qed.

Lemma armed_one_owned (w : world) : armed_one w -> owned w.
Proof. intros [t [E [R _]]]. right. now exists t. Qed.

Lemma torn_down_owned (w : world) : torn_down w -> owned w.
Proof. intros [_ [_ [E _]]]. now left. Qed.

Section OwnedWorld.

Variable w : world.
Hypothesis Hown : owned w.

Lemma scheduleNextRender_armed_one : armed_one (exec scheduleNextRender w).
Proof.
  rewrite exec_scheduleNextRender, (released_owned w Hown).
  eexists; cbn; repeat split; reflexivity.
Qed.

Lemma timer_callback_armed_one : armed_one (exec timer_callback w).
Proof.
  rewrite exec_timer_callback, (released_owned w Hown).
  eexists; cbn; repeat split; reflexivity.
Qed.

Lemma resetToFastRendering_armed_one :
  armed_one (exec resetToFastRendering w).
Proof.
  rewrite exec_resetToFastRendering, (released_owned w Hown).
  eexists; cbn; repeat split; reflexivity.
Qed.

Lemma scheduleNextRender_peak :
  peak (exec scheduleNextRender w) = Nat.max (peak w) 1.
Proof.
  now rewrite exec_scheduleNextRender, (released_owned w Hown).
Qed.

Lemma timer_callback_peak :
  peak (exec timer_callback w) = Nat.max (peak w) 1.
Proof.
  now rewrite exec_timer_callback, (released_owned w Hown).
Qed.

Lemma resetToFastRendering_peak :
  peak (exec resetToFastRendering w) = Nat.max (peak w) 1.
Proof.
  now rewrite exec_resetToFastRendering, (released_owned w Hown).
Qed.

End OwnedWorld.

Lemma resetToFastRendering_steady (w : world) :
  steady w -> steady (exec resetToFastRendering w).
Proof.
  intros (Hc & Hp & Hl & Ha).
  pose proof (armed_one_owned w Ha) as Ho.
  repeat split.
  - rewrite exec_resetToFastRendering; cbn. lia.
  - rewrite exec_resetToFastRendering; cbn. lia.
  - rewrite (resetToFastRendering_peak w Ho). lia.
  - rewrite exec_resetToFastRendering; cbn. apply Hl.
  - rewrite exec_resetToFastRendering; cbn. apply Hl.
  - now apply resetToFastRendering_armed_one.
Qed.

Lemma run_callback_steady (cb : callback) (w : world) :
  steady w -> steady (exec (run_callback cb) w).
Proof.
  intros Hs. destruct cb; cbn [run_callback]; unfold handleFocus.
  - now apply resetToFastRendering_steady.
  - rewrite exec_handleBlur. destruct w; exact Hs.
  - rewrite exec_handleUserInteraction.
    destruct (negb (isActiveRef w) || (0 <? intervalIndexRef w)).
    + now apply resetToFastRendering_steady.
    + exact Hs.
  - now apply resetToFastRendering_steady.
Qed.

Lemma dispatch_steady (type : string) (ls : list (string * callback))
  (w : world) : steady w -> steady (exec (dispatch type ls) w).
Proof.
  unfold dispatch. apply forEach_preserves.
  intros l w0. apply run_callback_steady.
Qed.

Lemma effect_cleanup_refs (w : world) :
  let w' := exec effect_cleanup w in
  timerRef w' = None /\
  intervalIndexRef w' = intervalIndexRef w /\
  isActiveRef w' = isActiveRef w /\
  now w' = now w /\
  timers w' = released w /\
  log w' = log w ++ release_calls w /\
  peak w' = peak w.
Proof.
  unfold effect_cleanup. cbv zeta.
  rewrite exec_bind, exec_clearTimer.
  cbn. rewrite ?app_nil_r. repeat split; reflexivity.
Qed.

Lemma effect_cleanup_detaches (w : world) :
  listening w \/ (window_listeners w = [] /\ bridge_listeners w = []) ->
  window_listeners (exec effect_cleanup w) = [] /\
  bridge_listeners (exec effect_cleanup w) = [].
Proof.
  unfold effect_cleanup.
  rewrite exec_bind, exec_clearTimer.
  intros [[Hw Hb] | [Hw Hb]]; cbn; rewrite Hw, Hb; split; reflexivity.
Qed.

Lemma mounted_eq (t0 : Z) :
  mounted t0 =
  mkWorld (Some 1%positive) 0 true t0 2%positive
          [mkTimer 1%positive 16 (t0 + 16)]
          [("focus", HandleFocus); ("blur", HandleBlur);
           ("mousemove", HandleUserInteraction);
           ("mousedown", HandleUserInteraction);
           ("mouseup", HandleUserInteraction);
           ("wheel", HandleUserInteraction);
           ("keydown", HandleUserInteraction);
           ("touchstart", HandleUserInteraction);
           ("touchmove", HandleUserInteraction)]
          [(reset_channel, OnResetErrorBoundary)]
          [SetTimeout 1%positive 16] 1%nat.
Proof. reflexivity. Qed.

Lemma mounted_steady (t0 : Z) : steady (mounted t0).
Proof.
  rewrite mounted_eq. unfold steady, cursor_ok, live, listening, armed_one.
  rewrite mounted_eq. cbn [timerRef intervalIndexRef isActiveRef now next_handle timers
       window_listeners bridge_listeners log peak].
  rewrite last_index_eq.
  repeat split; try lia.
  eexists; repeat split; reflexivity.
Qed.

Lemma timer_callback_steady (w : world) :
  cursor_ok w -> (peak w <= 1)%nat -> listening w -> owned w ->
  steady (exec timer_callback w).
Proof.
  intros Hc Hp Hl Ho. split; [|split; [|split]].
  - unfold cursor_ok. rewrite exec_timer_callback; cbn.
    now apply advance_in_range.
  - rewrite (timer_callback_peak w Ho). lia.
  - rewrite exec_timer_callback; exact Hl.
  - now apply timer_callback_armed_one.
Qed.

Lemma dispatch_nil (type : string) (w : world) : exec (dispatch type []) w = w.
Proof. reflexivity. Qed.

Lemma step_torn_down (e : event) (w w' : world) :
  torn_down w -> step e w = Some w' ->
  torn_down w' /\ log w' = log w /\ peak w' = peak w /\
  intervalIndexRef w' = intervalIndexRef w /\ isActiveRef w' = isActiveRef w.
Proof.
  intros (Hw & Hb & Hq & Hr) Hs. destruct e; cbn [step] in Hs.
  - destruct (0 <=? dt); inversion Hs; subst w'.
    repeat split; assumption.
  - rewrite Hq in Hs. discriminate.
  - rewrite Hw, dispatch_nil in Hs. inversion Hs; subst w'.
    repeat split; assumption.
  - rewrite Hb, dispatch_nil in Hs. inversion Hs; subst w'.
    repeat split; assumption.
  - inversion Hs; subst w'.
    destruct (effect_cleanup_refs w) as (E1 & E2 & E3 & _ & E5 & E6 & E7).
    destruct (effect_cleanup_detaches w) as [D1 D2]; [right; now split|].
    unfold released in E5. unfold release_calls in E6.
    rewrite Hr in E5, E6. rewrite app_nil_r in E6.
    repeat split; congruence.
Qed.

Lemma step_steady (e : event) (w w' : world) :
  steady w -> step e w = Some w' ->
  steady w' \/ (torn_down w' /\ cursor_ok w' /\ (peak w' <= 1)%nat).
Proof.
  intros Hs Hstep. pose proof Hs as (Hc & Hp & Hl & Ha).
  destruct e; cbn [step] in Hstep.
  - destruct (0 <=? dt); inversion Hstep; subst w'.
    left. destruct w; exact Hs.
  - destruct Ha as (t & Hq & Hr & Hd).
    rewrite Hq in Hstep. cbn [find filter] in Hstep.
    destruct (Pos.eqb_spec (t_handle t) h) as [<-|]; [|discriminate].
    destruct (t_due t <=? now w); inversion Hstep; subst w'.
    rewrite other_handle_self.
    left. apply timer_callback_steady; try assumption.
    now left.
  - inversion Hstep; subst w'. left. now apply dispatch_steady.
  - inversion Hstep; subst w'. left. now apply dispatch_steady.
  - inversion Hstep; subst w'. right.
    destruct (effect_cleanup_refs w) as (E1 & E2 & E3 & _ & E5 & E6 & E7).
    destruct (effect_cleanup_detaches w) as [D1 D2]; [now left|].
    rewrite (released_owned w (armed_one_owned w Ha)) in E5.
    unfold torn_down, cursor_ok. rewrite E2, E7.
    repeat split; try assumption; apply Hc.
Qed.

Lemma step_inv (e : event) (w w' : world) :
  inv w -> step e w = Some w' -> inv w'.
Proof.
  intros (Hc & Hp & [Hl | Ht]) Hs.
  - assert (Hst : steady w) by (split; [exact Hc | split; assumption]).
    destruct (step_steady e w w' Hst Hs) as [(C & P & L) | (T & C & P)].
    + split; [exact C | split; [exact P | now left]].
    + split; [exact C | split; [exact P | now right]].
  - destruct (step_torn_down e w w' Ht Hs) as (T & _ & P & I & _).
    unfold inv, cursor_ok. rewrite P, I.
    split; [exact Hc | split; [exact Hp | now right]].
Qed.

Lemma reachable_inv (w : world) : reachable w -> inv w.
Proof.
  induction 1 as [t0 | e w w' _ IH Hs].
  - destruct (mounted_steady t0) as (C & P & L).
    split; [exact C | split; [exact P | now left]].
  - now apply (step_inv e w w').
Qed.

(** * Counting redraws *)

Lemma redraws_log (w w' : world) (es : list effect) :
  log w' = log w ++ es ->
  redraws w' = (redraws w + List.length (filter is_invalidate es))%nat.
Proof.
  unfold redraws. intros ->. now rewrite filter_app, length_app.
Qed.

Lemma release_calls_no_redraw (w : world) (es : list effect) :
  filter is_invalidate (release_calls w ++ es) = filter is_invalidate es.
Proof. unfold release_calls. now destruct (timerRef w). Qed.

Lemma timer_callback_redraws (w : world) :
  redraws (exec timer_callback w) = S (redraws w).
Proof.
  rewrite (redraws_log w _ _ (f_equal log (exec_timer_callback w))).
  cbn [filter is_invalidate]. rewrite release_calls_no_redraw. cbn. lia.
Qed.

Lemma resetToFastRendering_redraws (w : world) :
  redraws (exec resetToFastRendering w) = S (redraws w).
Proof.
  rewrite (redraws_log w _ _ (f_equal log (exec_resetToFastRendering w))).
  rewrite release_calls_no_redraw. cbn. lia.
Qed.

(** * Quiet runs *)

(** In a world with one armed timer the host can always wait for it and
    fire it. *)
Lemma await_fire_armed (w : world) (t : timer) :
  timers w = [t] ->
  await_fire w =
  Some (t_delay t,
        exec timer_callback
          (set_timers [] (set_now (now w + Z.max 0 (t_due t - now w)) w))).
Proof.
  intros Hq. unfold await_fire. rewrite Hq. cbn [run step].
  destruct (Z.leb_spec 0 (Z.max 0 (t_due t - now w))) as [_|]; [|lia].
  cbn [set_now timers]. rewrite Hq. cbn [find filter].
  rewrite Pos.eqb_refl, other_handle_self.
  cbn [now set_now].
  destruct (Z.leb_spec (t_due t) (now w + Z.max 0 (t_due t - now w)));
    [reflexivity | lia].
Qed.

Lemma step_blur (w : world) :
  listening w -> step (WindowEvent "blur") w = Some (set_isActiveRef false w).
Proof.
  intros [Hw _]. cbn [step]. rewrite Hw, mounted_eq. reflexivity.
Qed.

Lemma advance_of_nat (c : nat) :
  (c <= 7)%nat -> advance (Z.of_nat c) = Z.of_nat (Nat.min (c + 1) 7).
Proof.
  intros Hc. unfold advance. rewrite last_index_eq.
  destruct (Z.ltb_spec (Z.of_nat c) 7); lia.
Qed.

Lemma delays_shift (c n : nat) :
  (c <= 7)%nat ->
  currentInterval (Z.of_nat c)
    :: map (fun k => currentInterval
                       (Z.of_nat (Nat.min (Nat.min (c + 1) 7 + k) 7)))
           (seq 0 n) =
  map (fun k => currentInterval (Z.of_nat (Nat.min (c + k) 7))) (seq 0 (S n)).
Proof.
  intros Hc. cbn [seq map]. f_equal.
  - do 2 f_equal. lia.
  - rewrite <- seq_shift, map_map. apply map_ext.
    intros k. do 2 f_equal. lia.
Qed.

Lemma run_quiet_delays (qs : list quiet) :
  forall (w : world) (c : nat),
    steady w -> intervalIndexRef w = Z.of_nat c -> (c <= 7)%nat ->
    exists w',
      run_quiet qs w =
        Some (map (fun k => currentInterval (Z.of_nat (Nat.min (c + k) 7)))
                  (seq 0 (fires qs)), w') /\
      steady w' /\
      (isActiveRef w = false -> isActiveRef w' = false).
Proof.
  induction qs as [|q qs IH]; intros w c Hs Hi Hc.
  - exists w. split; [reflexivity | split; [exact Hs | auto]].
  - pose proof Hs as (Hcur & Hp & Hl & (t & Hq & Hr & Hd)).
    destruct q; cbn [run_quiet].
    + rewrite (await_fire_armed w t Hq).
      set (w1 := set_timers [] (set_now (now w + Z.max 0 (t_due t - now w)) w)).
      assert (Hs1 : steady (exec timer_callback w1)).
      { apply timer_callback_steady; try assumption. now left. }
      assert (Hi1 : intervalIndexRef (exec timer_callback w1)
                    = Z.of_nat (Nat.min (c + 1) 7)).
      { rewrite exec_timer_callback. cbn. rewrite Hi.
        now apply advance_of_nat. }
      destruct (IH _ _ Hs1 Hi1) as (w' & Hrun & Hs' & Hf); [lia|].
      exists w'. rewrite Hrun. unfold fires. cbn [filter List.length seq map].
      fold (fires qs). split; [|split; [exact Hs'|]].
      * rewrite Hd, Hi, (delays_shift c (fires qs) Hc). reflexivity.
      * intros Hfl. apply Hf. rewrite exec_timer_callback. exact Hfl.
    + rewrite (step_blur w Hl).
      assert (Hs1 : steady (set_isActiveRef false w)) by (destruct w; exact Hs).
      destruct (IH _ c Hs1 Hi Hc) as (w' & Hrun & Hs' & Hf).
      exists w'. split; [exact Hrun|]. split; [exact Hs'|].
      intros _. now apply Hf.
Qed.

(** * Properties of the specification *)

Lemma currentInterval_nth (k : nat) :
  (k <= 7)%nat -> currentInterval (Z.of_nat k) = nth k PROGRESSIVE_INTERVALS 0.
Proof.
  intros Hk.
  do 8 (destruct k as [|k]; [reflexivity|]). lia.
Qed.

Lemma table_monotone (a b : nat) :
  (a <= b <= 7)%nat ->
  nth a PROGRESSIVE_INTERVALS 0 <= nth b PROGRESSIVE_INTERVALS 0.
Proof.
  intros H.
  do 8 (destruct a as [|a]; [do 8 (destruct b as [|b]; [cbn; lia|]); lia|]).
  lia.
Qed.

Lemma quiet_delays_spec (n : nat) :
  map (fun k => currentInterval (Z.of_nat (Nat.min (0 + k) 7))) (seq 0 n) =
  map spec_nth_delay (seq 1 n).
Proof.
  rewrite <- seq_shift, map_map. apply map_ext. intros k.
  unfold spec_nth_delay. cbn [List.length PROGRESSIVE_INTERVALS Nat.sub Nat.add].
  rewrite Nat.sub_0_r. apply currentInterval_nth. lia.
Qed.

(** C1.  A timer fire asks for exactly one redraw, then moves the cursor one
    step unless it is at the last index of the table, then arms one timer
    with the interval of the cursor as it then stands.  Hence, from a world
    that is mounted with the cursor at 0 (after start or after a reset) and
    through any run of fires and blurs, the Nth timer to fire had been armed
    with [table[min(N-1, table.length-1)]]; these delays never decrease and
    are the last entry of the table from the 8th on. *)
Theorem timer_fire_backoff (w : world) :
  cursor_ok w ->
  let w' := exec timer_callback w in
  log w' = log w ++ Invalidate :: release_calls w ++
             [SetTimeout (next_handle w) (currentInterval (intervalIndexRef w'))]
  /\ redraws w' = S (redraws w)
  /\ (intervalIndexRef w' = intervalIndexRef w + 1 <->
      intervalIndexRef w <> last_index)
  /\ (intervalIndexRef w' = intervalIndexRef w <->
      intervalIndexRef w = last_index)
  /\ timers w' = released w ++ [armed w (intervalIndexRef w')]
  /\ (steady w -> intervalIndexRef w = 0 ->
      forall qs, exists w'',
        run_quiet qs w = Some (map spec_nth_delay (seq 1 (fires qs)), w''))
  /\ (forall n m, (1 <= n <= m)%nat -> spec_nth_delay n <= spec_nth_delay m)
  /\ (forall n, (List.length PROGRESSIVE_INTERVALS <= n)%nat ->
      spec_nth_delay n = last PROGRESSIVE_INTERVALS 0).
Proof.
  intros Hc w'. subst w'.
  split; [|split; [|split; [|split; [|split; [|split; [|split]]]]]].
  - rewrite exec_timer_callback. reflexivity.
  - apply timer_callback_redraws.
  - rewrite exec_timer_callback. cbn [intervalIndexRef]. unfold advance.
    unfold cursor_ok in Hc.
    destruct (Z.ltb_spec (intervalIndexRef w) last_index); lia.
  - rewrite exec_timer_callback. cbn [intervalIndexRef]. unfold advance.
    unfold cursor_ok in Hc.
    destruct (Z.ltb_spec (intervalIndexRef w) last_index); lia.
  - rewrite exec_timer_callback. reflexivity.
  - intros Hs Hi qs.
    destruct (run_quiet_delays qs w 0 Hs Hi) as (w'' & Hrun & _); [lia|].
    exists w''. rewrite Hrun, quiet_delays_spec. reflexivity.
  - intros n m Hnm. unfold spec_nth_delay.
    cbn [List.length PROGRESSIVE_INTERVALS Nat.sub].
    apply table_monotone. lia.
  - intros n Hn. unfold spec_nth_delay.
    cbn [List.length PROGRESSIVE_INTERVALS] in *.
    replace (Nat.min (n - 1) (8 - 1)) with 7%nat by lia. reflexivity.
Qed.

Lemma timer_fire_backoff_witness :
  cursor_ok (mounted 0) /\ steady (mounted 0) /\
  intervalIndexRef (mounted 0) = 0 /\
  redraws (exec timer_callback (mounted 0)) = S (redraws (mounted 0)) /\
  exists w'',
    run_quiet [QFire; QFire; QBlur; QFire] (mounted 0) = Some ([16; 16; 33], w'').
Proof.
  assert (H : cursor_ok (mounted 0)) by (split; cbn; lia).
  pose proof (timer_fire_backoff (mounted 0) H) as T.
  split; [exact H|].
  split; [exact (mounted_steady 0)|].
  split; [reflexivity|].
  split; [exact (proj1 (proj2 T))|].
  exact (proj1 (proj2 (proj2 (proj2 (proj2 (proj2 T)))))
           (mounted_steady 0) eq_refl [QFire; QFire; QBlur; QFire]).
Defined.

Lemma resetToFastRendering_changes (w : world) :
  exec resetToFastRendering w <> w.
Proof.
  intros E. pose proof (resetToFastRendering_redraws w) as R.
  rewrite E in R. lia.
Qed.

Ltac dispatch_to_listeners :=
  match goal with
  | |- context [filter ?f ?l] =>
      let r := eval vm_compute in (filter f l) in change (filter f l) with r
  end;
  cbn [forEach snd run_callback]; rewrite ?exec_bind; reflexivity.

Lemma step_interaction (type : string) (w : world) :
  listening w -> In type interactionEvents ->
  step (WindowEvent type) w = Some (exec handleUserInteraction w).
Proof.
  intros [Hw _] Hin. cbn [step]. rewrite Hw, mounted_eq.
  cbn [window_listeners]. unfold dispatch.
  repeat (destruct Hin as [<- | Hin]; [dispatch_to_listeners|]).
  destruct Hin.
Qed.

(** C2.  The activity handler runs [resetToFastRendering] exactly when the
    activity flag is false or the cursor is above 0.  When the flag is true
    and the cursor is 0 it leaves the whole world as it was: no redraw is
    requested, the pending timer keeps its handle, its delay and the instant
    it is due, the cursor and the flag stay as they are; this is also what
    each interaction event does to a mounted world. *)
Theorem activity_handler_policy (w : world) :
  (exec handleUserInteraction w = exec resetToFastRendering w <->
   isActiveRef w = false \/ 0 < intervalIndexRef w)
  /\ (isActiveRef w = true -> intervalIndexRef w = 0 ->
      exec handleUserInteraction w = w
      /\ redraws (exec handleUserInteraction w) = redraws w
      /\ timers (exec handleUserInteraction w) = timers w
      /\ forall type, listening w -> In type interactionEvents ->
           step (WindowEvent type) w = Some w).
Proof.
  rewrite exec_handleUserInteraction.
  split.
  - destruct (isActiveRef w); cbn [negb orb].
    + destruct (Z.ltb_spec 0 (intervalIndexRef w)); split.
      * right; assumption.
      * reflexivity.
      * intros E. symmetry in E. now apply resetToFastRendering_changes in E.
      * intros [E | E]; [discriminate | lia].
    + split; [now left | reflexivity].
  - intros Ha Hi.
    assert (E : (if negb (isActiveRef w) || (0 <? intervalIndexRef w)
                 then exec resetToFastRendering w else w) = w).
    { rewrite Ha, Hi. reflexivity. }
    rewrite E. repeat split.
    intros type Hl Hin.
    rewrite (step_interaction type w Hl Hin), exec_handleUserInteraction.
    now rewrite E.
Qed.

Lemma activity_handler_policy_witness :
  isActiveRef (mounted 0) = true /\ intervalIndexRef (mounted 0) = 0 /\
  listening (mounted 0) /\ In "keydown" interactionEvents /\
  step (WindowEvent "keydown") (mounted 0) = Some (mounted 0).
Proof.
  assert (Hin : In "keydown" interactionEvents) by (cbn; tauto).
  assert (Hl : listening (mounted 0)) by (split; reflexivity).
  split; [reflexivity|]. split; [reflexivity|].
  split; [exact Hl|]. split; [exact Hin|].
  exact (proj2 (proj2 (proj2
           (proj2 (activity_handler_policy (mounted 0)) eq_refl eq_refl)))
           "keydown" Hl Hin).
Defined.

(** C3.  From any world, [resetToFastRendering] leaves the cursor at 0 and
    the activity flag true, clears the timer the hook held, arms one timer
    whose delay is the first entry of the table, and asks for exactly one
    redraw in the same turn; when the queue held no timer but the hook's,
    the new timer is the only one, and its fire, 16 ms later, is one more
    redraw. *)
Theorem resetToFastRendering_effect (w : world) :
  let w' := exec resetToFastRendering w in
  intervalIndexRef w' = 0
  /\ isActiveRef w' = true
  /\ timerRef w' = Some (next_handle w)
  /\ timers w' = released w ++ [armed w 0]
  /\ t_delay (armed w 0) = nth 0 PROGRESSIVE_INTERVALS 0
  /\ t_due (armed w 0) = now w + 16
  /\ log w' = log w ++ release_calls w ++
                [SetTimeout (next_handle w) 16; Invalidate]
  /\ redraws w' = S (redraws w)
  /\ (owned w ->
      timers w' = [armed w 0]
      /\ exists w'', await_fire w' = Some (16, w'')
                     /\ now w'' = now w + 16
                     /\ redraws w'' = S (S (redraws w))).
Proof.
  cbv zeta.
  pose proof (resetToFastRendering_redraws w) as R.
  rewrite exec_resetToFastRendering in *.
  cbn [intervalIndexRef isActiveRef timerRef timers log].
  repeat (split; [first [reflexivity | exact R]|]).
  intros Ho. rewrite (released_owned w Ho). cbn [app].
  split; [reflexivity|].
  eexists. split; [|split].
  - erewrite await_fire_armed by reflexivity. reflexivity.
  - rewrite exec_timer_callback. cbn. lia.
  - rewrite timer_callback_redraws. f_equal.
    etransitivity; [|exact R]. reflexivity.
Qed.

Lemma resetToFastRendering_effect_witness :
  owned (mounted 0) /\
  timers (exec resetToFastRendering (mounted 0)) = [armed (mounted 0) 0].
Proof.
  assert (Ho : owned (mounted 0)).
  { right. eexists. split; reflexivity. }
  split; [exact Ho|].
  pose proof (resetToFastRendering_effect (mounted 0))
    as (_ & _ & _ & _ & _ & _ & _ & _ & H).
  exact (proj1 (H Ho)).
Defined.

Lemma step_focus (w : world) :
  listening w ->
  step (WindowEvent "focus") w = Some (exec resetToFastRendering w).
Proof.
  intros [Hw _]. cbn [step]. rewrite Hw, mounted_eq.
  cbn [window_listeners]. unfold dispatch. dispatch_to_listeners.
Qed.

(** C4 as the specification states it fails in the world right after mount: the
    activity flag is true and the cursor is 0, and yet a focus event asks for
    a redraw, clears timer 1 and arms timer 2. *)
Lemma focus_signal_not_noop :
  listening (mounted 0) /\
  isActiveRef (mounted 0) = true /\ intervalIndexRef (mounted 0) = 0 /\
  exists w',
    step (WindowEvent "focus") (mounted 0) = Some w' /\
    redraws w' = S (redraws (mounted 0)) /\
    In (ClearTimeout 1%positive) (log w') /\
    map t_handle (timers (mounted 0)) = [1%positive] /\
    map t_handle (timers w') = [2%positive] /\
    w' <> mounted 0.
Proof.
  split; [split; reflexivity|].
  split; [reflexivity|]. split; [reflexivity|].
  eexists. split; [vm_compute; reflexivity|].
  split; [reflexivity|].
  split; [cbn; tauto|].
  split; [reflexivity|]. split; [reflexivity|].
  intros E. apply (f_equal next_handle) in E. discriminate E.
Qed.

(** C4, amended.  The focus listener is [resetToFastRendering] itself and
    not the activity handler: in every mounted world, also when the activity
    flag is true and the cursor is 0, a focus event asks for one redraw at
    once, clears the timer the hook held and arms a new one with the first
    interval of the table. *)
Theorem focus_signal_resets (w : world) :
  listening w ->
  step (WindowEvent "focus") w = Some (exec resetToFastRendering w)
  /\ step (WindowEvent "focus") w <> Some w
  /\ redraws (exec resetToFastRendering w) = S (redraws w)
  /\ log (exec resetToFastRendering w) =
       log w ++ release_calls w ++ [SetTimeout (next_handle w) 16; Invalidate]
  /\ timers (exec resetToFastRendering w) = released w ++ [armed w 0]
  /\ t_delay (armed w 0) = nth 0 PROGRESSIVE_INTERVALS 0.
Proof.
  intros Hl. rewrite (step_focus w Hl).
  split; [reflexivity|].
  split.
  { intros E. inversion E as [E']. now apply resetToFastRendering_changes in E'. }
  split; [apply resetToFastRendering_redraws|].
  rewrite exec_resetToFastRendering. repeat split.
Qed.

Lemma focus_signal_resets_witness :
  listening (mounted 0) /\
  step (WindowEvent "focus") (mounted 0) =
    Some (exec resetToFastRendering (mounted 0)).
Proof.
  assert (Hl : listening (mounted 0)) by (split; reflexivity).
  split; [exact Hl | exact (proj1 (focus_signal_resets (mounted 0) Hl))].
Defined.

(** The flag plays no part in a fire. *)
Lemma timer_callback_flag (b : bool) (w : world) :
  exec timer_callback (set_isActiveRef b w) =
  set_isActiveRef b (exec timer_callback w).
Proof. rewrite !exec_timer_callback. reflexivity. Qed.

Lemma step_timer_turn_commute (e : event) (b : bool) (w : world) :
  timer_turn e = true ->
  step e (set_isActiveRef b w) = option_map (set_isActiveRef b) (step e w).
Proof.
  destruct e; try discriminate; intros _; cbn [step].
  - change (now (set_isActiveRef b w)) with (now w).
    destruct (0 <=? dt); reflexivity.
  - change (timers (set_isActiveRef b w)) with (timers w).
    change (now (set_isActiveRef b w)) with (now w).
    destruct (find _ (timers w)) as [t|]; [|reflexivity].
    destruct (t_due t <=? now w); [|reflexivity].
    cbn [option_map]. f_equal.
    rewrite <- timer_callback_flag. reflexivity.
Qed.

Lemma run_timer_turns_commute (es : list event) (b : bool) :
  forall w, forallb timer_turn es = true ->
            run es (set_isActiveRef b w)
            = option_map (set_isActiveRef b) (run es w).
Proof.
  induction es as [|e es IH]; intros w Hall; [reflexivity|].
  cbn [forallb] in Hall. apply andb_prop in Hall as [He Hes].
  cbn [run]. rewrite (step_timer_turn_commute e b w He).
  destruct (step e w) as [w1|]; [|reflexivity].
  cbn [option_map]. now apply IH.
Qed.

Lemma await_fire_flag (b : bool) (w : world) :
  await_fire (set_isActiveRef b w) =
  match await_fire w with
  | Some (d, w') => Some (d, set_isActiveRef b w')
  | None => None
  end.
Proof.
  unfold await_fire.
  change (timers (set_isActiveRef b w)) with (timers w).
  change (now (set_isActiveRef b w)) with (now w).
  destruct (timers w) as [|t q]; [reflexivity|].
  rewrite run_timer_turns_commute by reflexivity.
  destruct (run _ w); reflexivity.
Qed.

Lemma run_timer_turns_listening (es : list event) :
  forall w w', forallb timer_turn es = true -> run es w = Some w' ->
               listening w -> listening w'.
Proof.
  induction es as [|e es IH]; intros w w' Hall Hrun Hl; cbn [run] in Hrun.
  - now inversion Hrun; subst.
  - cbn [forallb] in Hall. apply andb_prop in Hall as [He Hes].
    destruct (step e w) as [w1|] eqn:Hs; [|discriminate].
    apply (IH w1 w' Hes Hrun).
    destruct e; try discriminate; cbn [step] in Hs.
    + destruct (0 <=? dt); inversion Hs; subst. exact Hl.
    + destruct (find _ (timers w)) as [t|]; [|discriminate].
      destruct (t_due t <=? now w); inversion Hs; subst.
      rewrite exec_timer_callback. exact Hl.
Qed.

Lemma await_fire_listening (w w' : world) (d : Z) :
  await_fire w = Some (d, w') -> listening w -> listening w'.
Proof.
  unfold await_fire. destruct (timers w) as [|t q]; [discriminate|].
  destruct (run _ w) as [w1|] eqn:Hrun; [|discriminate].
  intros E; inversion E; subst.
  eapply run_timer_turns_listening; [|exact Hrun]. reflexivity.
Qed.

Lemma run_quiet_flag (qs : list quiet) :
  forall (w : world) (b : bool),
    listening w ->
    option_map fst (run_quiet qs (set_isActiveRef b w)) =
    option_map fst (run_quiet qs w).
Proof.
  induction qs as [|q qs IH]; intros w b Hl; [reflexivity|].
  destruct q; cbn [run_quiet].
  - rewrite await_fire_flag.
    destruct (await_fire w) as [[d w']|] eqn:E; [|reflexivity].
    pose proof (IH w' b (await_fire_listening w w' d E Hl)) as H.
    destruct (run_quiet qs (set_isActiveRef b w')) as [[ds1 w1]|];
      destruct (run_quiet qs w') as [[ds2 w2]|];
      cbn in H |- *; congruence.
  - rewrite (step_blur w Hl), (step_blur (set_isActiveRef b w) Hl).
    reflexivity.
Qed.

(** C5.  The blur listener sets the activity flag to false and touches
    nothing else: not the cursor, not the timer the hook holds, not the
    queue of the host, and it requests no redraw.  The timers that fire
    afterwards are armed with the same delays as if the blur had not
    happened. *)
Theorem blur_is_passive (w : world) :
  exec handleBlur w = set_isActiveRef false w
  /\ isActiveRef (exec handleBlur w) = false
  /\ intervalIndexRef (exec handleBlur w) = intervalIndexRef w
  /\ timerRef (exec handleBlur w) = timerRef w
  /\ timers (exec handleBlur w) = timers w
  /\ log (exec handleBlur w) = log w
  /\ redraws (exec handleBlur w) = redraws w
  /\ (listening w ->
      step (WindowEvent "blur") w = Some (exec handleBlur w)
      /\ forall qs,
           option_map fst (run_quiet qs (exec handleBlur w)) =
           option_map fst (run_quiet qs w)).
Proof.
  rewrite exec_handleBlur. repeat (split; [reflexivity|]).
  intros Hl. split; [now apply step_blur|].
  intros qs. now apply run_quiet_flag.
Qed.

Lemma blur_is_passive_witness :
  listening (mounted 0) /\
  step (WindowEvent "blur") (mounted 0) = Some (exec handleBlur (mounted 0)).
Proof.
  assert (Hl : listening (mounted 0)) by (split; reflexivity).
  split; [exact Hl|].
  exact (proj1 (proj2 (proj2 (proj2 (proj2 (proj2 (proj2 (proj2
           (blur_is_passive (mounted 0)))))))) Hl)).
Defined.

Lemma inv_owned (w : world) : inv w -> owned w.
Proof.
  intros (_ & _ & [[_ Ha] | Ht]).
  - now apply armed_one_owned.
  - now apply torn_down_owned.
Qed.

(** C6.  The cursor is 0 when the hook starts and stays between 0 and the
    last index of the table: the callback of the timer, the activity
    handler, the blur handler and [resetToFastRendering] each keep it in
    range, the fire moving it up by one only from strictly below the last
    index and leaving it there once reached.  So it is in range in every
    reachable world. *)
Theorem cursor_in_range :
  (forall t0, intervalIndexRef (initial t0) = 0 /\ cursor_ok (initial t0)
              /\ cursor_ok (mounted t0))
  /\ (forall w, cursor_ok w ->
        cursor_ok (exec timer_callback w)
        /\ cursor_ok (exec handleUserInteraction w)
        /\ cursor_ok (exec handleBlur w)
        /\ cursor_ok (exec resetToFastRendering w)
        /\ (intervalIndexRef (exec timer_callback w) = intervalIndexRef w + 1
            <-> intervalIndexRef w < last_index)
        /\ (intervalIndexRef w = last_index ->
            intervalIndexRef (exec timer_callback w) = last_index))
  /\ (forall w, reachable w -> cursor_ok w).
Proof.
  split; [|split].
  - intros t0. unfold cursor_ok. cbn. lia.
  - intros w Hc.
    assert (Hr : cursor_ok (exec resetToFastRendering w)).
    { unfold cursor_ok. rewrite exec_resetToFastRendering. cbn. lia. }
    split; [|split; [|split; [|split; [|split]]]].
    + unfold cursor_ok. rewrite exec_timer_callback. cbn [intervalIndexRef].
      now apply advance_in_range.
    + rewrite exec_handleUserInteraction.
      now destruct (negb (isActiveRef w) || (0 <? intervalIndexRef w)).
    + exact Hc.
    + exact Hr.
    + rewrite exec_timer_callback. cbn [intervalIndexRef]. unfold advance.
      destruct (Z.ltb_spec (intervalIndexRef w) last_index); lia.
    + intros E. rewrite exec_timer_callback. cbn [intervalIndexRef].
      unfold advance. rewrite E, Z.ltb_irrefl. reflexivity.
  - intros w Hr. apply (reachable_inv w Hr).
Qed.

Lemma cursor_in_range_witness :
  reachable (mounted 0) /\ cursor_ok (mounted 0) /\
  cursor_ok (exec timer_callback (mounted 0)).
Proof.
  pose proof cursor_in_range as (_ & Hop & Hreach).
  assert (Hr : reachable (mounted 0)) by constructor.
  split; [exact Hr|].
  split; [exact (Hreach _ Hr) | exact (proj1 (Hop _ (Hreach _ Hr)))].
Defined.

(** C7.  No two timers are ever armed together, from mount through cleanup
    and after: in every reachable world the queue holds at most one timer,
    it is the one the hook holds, and the queue never held more than one.
    [scheduleNextRender] clears the timer the hook holds before it arms the
    next, so it leaves exactly one timer; run twice in a row it leaves one
    timer with the same delay, due at the same instant, under a new handle. *)
Theorem single_pending_timer :
  (forall w, reachable w ->
     (peak w <= 1)%nat /\ (List.length (timers w) <= 1)%nat /\ owned w)
  /\ (forall w,
        log (exec scheduleNextRender w) =
          log w ++ release_calls w ++
            [SetTimeout (next_handle w) (currentInterval (intervalIndexRef w))]
        /\ timers (exec scheduleNextRender w) =
             released w ++ [armed w (intervalIndexRef w)])
  /\ (forall w, owned w ->
        let w1 := exec scheduleNextRender w in
        let w2 := exec scheduleNextRender w1 in
        timers w1 = [armed w (intervalIndexRef w)]
        /\ peak w1 = Nat.max (peak w) 1
        /\ owned w1
        /\ map pending_view (timers w2) = map pending_view (timers w1)
        /\ List.length (timers w2) = 1%nat
        /\ peak w2 = peak w1).
Proof.
  split; [|split].
  - intros w Hr. pose proof (reachable_inv w Hr) as Hi.
    pose proof (inv_owned w Hi) as Ho.
    split; [apply Hi|]. split; [|exact Ho].
    destruct Ho as [E | (t & E & _)]; rewrite E; cbn; lia.
  - intros w. rewrite exec_scheduleNextRender. split; reflexivity.
  - intros w Ho w1 w2.
    assert (Ho1 : owned w1).
    { apply armed_one_owned. now apply scheduleNextRender_armed_one. }
    assert (E1 : timers w1 = [armed w (intervalIndexRef w)]).
    { subst w1. rewrite exec_scheduleNextRender, (released_owned w Ho).
      reflexivity. }
    assert (E2 : timers w2 = [armed w1 (intervalIndexRef w1)]).
    { subst w2. rewrite exec_scheduleNextRender, (released_owned w1 Ho1).
      reflexivity. }
    assert (P1 : peak w1 = Nat.max (peak w) 1)
      by now apply scheduleNextRender_peak.
    assert (P2 : peak w2 = Nat.max (peak w1) 1)
      by now apply scheduleNextRender_peak.
    split; [exact E1|]. split; [exact P1|]. split; [exact Ho1|].
    split; [|split].
    + rewrite E1, E2. subst w1. rewrite exec_scheduleNextRender. reflexivity.
    + rewrite E2. reflexivity.
    + lia.
Qed.

Lemma single_pending_timer_witness :
  reachable (mounted 0) /\ owned (mounted 0) /\
  (peak (mounted 0) <= 1)%nat /\
  timers (exec scheduleNextRender (mounted 0)) = [armed (mounted 0) 0].
Proof.
  pose proof single_pending_timer as (Hreach & _ & Hidem).
  assert (Hr : reachable (mounted 0)) by constructor.
  destruct (Hreach _ Hr) as (Hp & _ & Ho).
  split; [exact Hr|]. split; [exact Ho|]. split; [exact Hp|].
  exact (proj1 (Hidem _ Ho)).
Defined.

(** C8.  Whatever the cursor, also below 0 or past the last index of the
    table, the interval looked up for the next timer is a positive number:
    inside the table it is the entry of the cursor, outside it is 1000, which
    is the last entry of the table.  So [scheduleNextRender] always arms its
    timer with a positive delay. *)
Theorem interval_lookup_defined (i : Z) :
  0 < currentInterval i
  /\ (0 <= i <= last_index ->
      array_get PROGRESSIVE_INTERVALS i = Some (currentInterval i))
  /\ (i < 0 \/ last_index < i ->
      array_get PROGRESSIVE_INTERVALS i = None /\ currentInterval i = 1000)
  /\ last PROGRESSIVE_INTERVALS 0 = 1000
  /\ (forall w, intervalIndexRef w = i ->
        exists d, 0 < d /\
          log (exec scheduleNextRender w) =
            log w ++ release_calls w ++ [SetTimeout (next_handle w) d]).
Proof.
  assert (Hin : 0 <= i <= last_index ->
                array_get PROGRESSIVE_INTERVALS i = Some (currentInterval i)
                /\ 0 < currentInterval i).
  { rewrite last_index_eq. intros H.
    assert (E : i = 0 \/ i = 1 \/ i = 2 \/ i = 3 \/ i = 4 \/ i = 5 \/ i = 6
                \/ i = 7) by lia.
    repeat (destruct E as [-> | E]; [split; reflexivity|]).
    subst i. split; reflexivity. }
  assert (Hout : i < 0 \/ last_index < i ->
                 array_get PROGRESSIVE_INTERVALS i = None
                 /\ currentInterval i = 1000).
  { rewrite last_index_eq. intros H.
    assert (E : array_get PROGRESSIVE_INTERVALS i = None).
    { unfold array_get. destruct (Z.ltb_spec i 0); [reflexivity|].
      apply nth_error_None. cbn [List.length PROGRESSIVE_INTERVALS]. lia. }
    split; [exact E|]. unfold currentInterval. now rewrite E. }
  assert (Hpos : 0 < currentInterval i).
  { destruct (Z_lt_dec i 0) as [Hn|Hn].
    - destruct Hout as [_ ->]; [now left | lia].
    - destruct (Z_lt_dec last_index i) as [Hb|Hb].
      + destruct Hout as [_ ->]; [now right | lia].
      + apply Hin. lia. }
  split; [exact Hpos|]. split; [apply Hin|]. split; [exact Hout|].
  split; [reflexivity|].
  intros w <-. exists (currentInterval (intervalIndexRef w)).
  split; [exact Hpos|]. rewrite exec_scheduleNextRender. reflexivity.
Qed.

Lemma interval_lookup_defined_witness :
  (last_index < 8) /\ currentInterval 8 = 1000 /\
  array_get PROGRESSIVE_INTERVALS 8 = None.
Proof.
  assert (H : 8 < 0 \/ last_index < 8) by (right; reflexivity).
  destruct (proj1 (proj2 (proj2 (interval_lookup_defined 8))) H) as [E1 E2].
  split; [reflexivity|]. split; [exact E2 | exact E1].
Defined.

Lemma effect_cleanup_torn_down (w : world) :
  inv w -> torn_down (exec effect_cleanup w).
Proof.
  intros Hi.
  destruct (effect_cleanup_refs w) as (E1 & _ & _ & _ & E5 & _).
  rewrite (released_owned w (inv_owned w Hi)) in E5.
  destruct (effect_cleanup_detaches w) as [D1 D2].
  { destruct Hi as (_ & _ & [[Hl _] | (Hw & Hb & _)]);
      [now left | right; now split]. }
  repeat split; assumption.
Qed.

Lemma run_torn_down (es : list event) :
  forall w w', torn_down w -> run es w = Some w' ->
               torn_down w' /\ log w' = log w.
Proof.
  induction es as [|e es IH]; intros w w' Ht Hrun; cbn [run] in Hrun.
  - inversion Hrun; subst. now split.
  - destruct (step e w) as [w1|] eqn:Hs; [|discriminate].
    destruct (step_torn_down e w w1 Ht Hs) as (Ht1 & Hlog & _).
    destruct (IH w1 w' Ht1 Hrun) as [Ht' Hlog'].
    split; [exact Ht' | congruence].
Qed.

(** C9.  Once the cleanup of the effect has run, no timer is armed, the hook
    holds none, and neither [window] nor the bridge has a listener of the
    hook left; whatever happens afterwards (events on [window], messages on
    the bridge, time passing, a second cleanup) changes neither the log nor
    the queue, so no redraw is ever requested again, and no timer can fire. *)
Theorem teardown_is_final (w : world) :
  reachable w ->
  let w' := exec effect_cleanup w in
  step Unmount w = Some w'
  /\ timers w' = [] /\ timerRef w' = None
  /\ window_listeners w' = [] /\ bridge_listeners w' = []
  /\ (forall es w'', run es w' = Some w'' ->
        timers w'' = [] /\ log w'' = log w' /\ redraws w'' = redraws w')
  /\ (forall type, step (WindowEvent type) w' = Some w')
  /\ (forall name, step (BridgeEvent name) w' = Some w')
  /\ (forall h, step (TimerFire h) w' = None).
Proof.
  intros Hr w'.
  pose proof (effect_cleanup_torn_down w (reachable_inv w Hr)) as Ht.
  fold w' in Ht. pose proof Ht as (Hw & Hb & Hq & Href).
  split; [reflexivity|].
  repeat (split; [assumption|]).
  split; [|split; [|split]].
  - intros es w'' Hrun.
    destruct (run_torn_down es w' w'' Ht Hrun) as [(_ & _ & Hq' & _) Hlog].
    split; [exact Hq'|]. split; [exact Hlog|].
    unfold redraws. now rewrite Hlog.
  - intros type. cbn [step]. now rewrite Hw, dispatch_nil.
  - intros name. cbn [step]. now rewrite Hb, dispatch_nil.
  - intros h. cbn [step]. now rewrite Hq.
Qed.

Lemma teardown_is_final_witness :
  reachable (mounted 0) /\
  timers (exec effect_cleanup (mounted 0)) = [] /\
  forall w'',
    run [WindowEvent "focus"; BridgeEvent reset_channel; Elapse 5000;
         WindowEvent "mousemove"; Unmount]
        (exec effect_cleanup (mounted 0)) = Some w'' ->
    redraws w'' = redraws (exec effect_cleanup (mounted 0)).
Proof.
  assert (Hr : reachable (mounted 0)) by constructor.
  pose proof (teardown_is_final (mounted 0) Hr) as T.
  split; [exact Hr|].
  split; [exact (proj1 (proj2 T))|].
  intros w'' Hrun.
  exact (proj2 (proj2
           (proj1 (proj2 (proj2 (proj2 (proj2 (proj2 T))))) _ w'' Hrun))).
Defined.

Lemma step_timer_turn_flag (e : event) (w w' : world) :
  timer_turn e = true -> step e w = Some w' -> isActiveRef w' = isActiveRef w.
Proof.
  destruct e; try discriminate; intros _ Hs; cbn [step] in Hs.
  - destruct (0 <=? dt); inversion Hs; reflexivity.
  - destruct (find _ _) as [t|]; [|discriminate].
    destruct (t_due t <=? now w); inversion Hs.
    rewrite exec_timer_callback. reflexivity.
Qed.

Lemma run_timer_turns_flag (es : list event) :
  forall w w', forallb timer_turn es = true -> run es w = Some w' ->
               isActiveRef w' = isActiveRef w.
Proof.
  induction es as [|e es IH]; intros w w' Hall Hrun; cbn [run] in Hrun.
  - now inversion Hrun.
  - cbn [forallb] in Hall. apply andb_prop in Hall as [He Hes].
    destruct (step e w) as [w1|] eqn:Hs; [|discriminate].
    rewrite (IH w1 w' Hes Hrun). now apply (step_timer_turn_flag e).
Qed.

(** C10.  A timer fire leaves the activity flag as it finds it, and so do
    the passing of time and the cleanup.  Of the listeners only the blur
    handler can turn the flag from true to false, and a listener that turns
    it from false to true has run [resetToFastRendering]; the flag is true
    at the start.  So after a blur the flag is false and stays false through
    any number of fires, and such runs exist in every mounted world. *)
Theorem timer_fire_keeps_flag :
  (forall w, isActiveRef (exec timer_callback w) = isActiveRef w)
  /\ (forall t0, isActiveRef (initial t0) = true
                 /\ isActiveRef (mounted t0) = true)
  /\ (forall w, isActiveRef (exec handleBlur w) = false
                /\ isActiveRef (exec resetToFastRendering w) = true
                /\ isActiveRef (exec effect_cleanup w) = isActiveRef w)
  /\ (forall cb w, isActiveRef w = true ->
        isActiveRef (exec (run_callback cb) w) = false -> cb = HandleBlur)
  /\ (forall cb w, isActiveRef w = false ->
        isActiveRef (exec (run_callback cb) w) = true ->
        exec (run_callback cb) w = exec resetToFastRendering w)
  /\ (forall es w w', forallb timer_turn es = true ->
        run es (exec handleBlur w) = Some w' -> isActiveRef w' = false)
  /\ (forall w qs, steady w ->
        exists ds w', run_quiet qs (exec handleBlur w) = Some (ds, w')
                      /\ isActiveRef w' = false).
Proof.
  split; [|split; [|split; [|split; [|split; [|split]]]]].
  - intros w. rewrite exec_timer_callback. reflexivity.
  - intros t0. split; reflexivity.
  - intros w. split; [reflexivity|]. split.
    + rewrite exec_resetToFastRendering. reflexivity.
    + apply effect_cleanup_refs.
  - intros cb w Ha. destruct cb; cbn [run_callback]; unfold handleFocus;
      rewrite ?exec_handleUserInteraction, ?Ha; cbn [negb orb];
      try destruct (0 <? intervalIndexRef w);
      rewrite ?exec_resetToFastRendering; cbn [isActiveRef];
      congruence.
  - intros cb w Ha. destruct cb; cbn [run_callback]; unfold handleFocus;
      rewrite ?exec_handleUserInteraction, ?Ha; cbn [negb orb];
      try reflexivity.
    rewrite exec_handleBlur. cbn. discriminate.
  - intros es w w' Hall Hrun.
    now rewrite (run_timer_turns_flag es _ w' Hall Hrun).
  - intros w qs Hs.
    assert (Hs1 : steady (exec handleBlur w)) by (destruct w; exact Hs).
    pose proof Hs as ([Hlo Hhi] & _).
    rewrite last_index_eq in Hhi.
    destruct (run_quiet_delays qs (exec handleBlur w)
                (Z.to_nat (intervalIndexRef w)) Hs1) as (w' & Hrun & _ & Hf).
    + rewrite exec_handleBlur. cbn [intervalIndexRef set_isActiveRef]. lia.
    + lia.
    + eexists. exists w'. split; [exact Hrun | now apply Hf].
Qed.

Lemma timer_fire_keeps_flag_witness :
  steady (mounted 0) /\
  exists ds w',
    run_quiet [QFire; QFire; QFire] (exec handleBlur (mounted 0))
      = Some (ds, w')
    /\ isActiveRef w' = false.
Proof.
  split; [exact (mounted_steady 0)|].
  exact (proj2 (proj2 (proj2 (proj2 (proj2 (proj2 timer_fire_keeps_flag)))))
           (mounted 0) [QFire; QFire; QFire] (mounted_steady 0)).
Defined.

(** * Further properties of the hook *)

(** ** Which events reach which callback *)

Ltac run_single_listener :=
  cbn [forEach snd run_callback]; unfold handleFocus;
  rewrite ?exec_bind; reflexivity.

(** What an event on [window] does in a mounted world, by its type. *)
Lemma window_event_cases (type : string) (w : world) :
  listening w ->
  exec (dispatch type (window_listeners w)) w =
  if String.eqb "focus" type then exec resetToFastRendering w
  else if String.eqb "blur" type then set_isActiveRef false w
  else if existsb (fun ev => String.eqb ev type) interactionEvents
       then exec handleUserInteraction w
       else w.
Proof.
  intros [Hw _]. rewrite Hw, mounted_eq. cbn [window_listeners].
  unfold dispatch. cbn [filter fst existsb interactionEvents].
  destruct (String.eqb_spec "focus" type) as [<-|_]; [run_single_listener|].
  destruct (String.eqb_spec "blur" type) as [<-|_]; [run_single_listener|].
  repeat match goal with
         | |- context [String.eqb ?s type] =>
             destruct (String.eqb_spec s type) as [<-|_];
             [run_single_listener|]
         end.
  reflexivity.
Qed.

Lemma bridge_event_cases (name : string) (w : world) :
  listening w ->
  exec (dispatch name (bridge_listeners w)) w =
  if String.eqb reset_channel name then exec resetToFastRendering w else w.
Proof.
  intros [_ Hb]. rewrite Hb, mounted_eq. cbn [bridge_listeners].
  unfold dispatch. cbn [filter fst].
  destruct (String.eqb reset_channel name); [run_single_listener|reflexivity].
Qed.

(** X1.  In a mounted world a message on the channel
    [self:request-reset-error-boundary] runs [resetToFastRendering] without
    the test of the activity handler, so it asks for a redraw and arms a new
    timer even when the flag is true and the cursor is 0; a message on any
    other channel changes nothing. *)
Theorem reset_channel_resets (w : world) :
  listening w ->
  step (BridgeEvent reset_channel) w = Some (exec resetToFastRendering w)
  /\ step (BridgeEvent reset_channel) w <> Some w
  /\ redraws (exec resetToFastRendering w) = S (redraws w)
  /\ (forall name, name <> reset_channel -> step (BridgeEvent name) w = Some w).
Proof.
  intros Hl. cbn [step].
  split; [|split; [|split]].
  - rewrite (bridge_event_cases _ w Hl), String.eqb_refl. reflexivity.
  - rewrite (bridge_event_cases _ w Hl), String.eqb_refl.
    intros E. inversion E as [E'].
    now apply resetToFastRendering_changes in E'.
  - apply resetToFastRendering_redraws.
  - intros name Hn. rewrite (bridge_event_cases name w Hl).
    destruct (String.eqb_spec reset_channel name) as [E|_]; [|reflexivity].
    now elim Hn.
Qed.

Lemma reset_channel_resets_witness :
  listening (mounted 0) /\
  step (BridgeEvent reset_channel) (mounted 0) =
    Some (exec resetToFastRendering (mounted 0)) /\
  step (BridgeEvent "self:other") (mounted 0) = Some (mounted 0).
Proof.
  assert (Hl : listening (mounted 0)) by (split; reflexivity).
  pose proof (reset_channel_resets (mounted 0) Hl) as (H1 & _ & _ & H4).
  split; [exact Hl|]. split; [exact H1|].
  apply H4. discriminate.
Defined.

(** X2.  The effect listens to focus, blur and the seven interaction events
    and to nothing else: in a mounted world an event of any other type
    (click, keyup, touchend, resize, ...) leaves the world as it is, and an
    event of a listened type runs exactly one callback. *)
Theorem unlistened_events_ignored (type : string) (w : world) :
  listening w ->
  (listened type = false -> step (WindowEvent type) w = Some w)
  /\ (listened type = true ->
      step (WindowEvent type) w = Some (exec resetToFastRendering w)
      \/ step (WindowEvent type) w = Some (exec handleBlur w)
      \/ step (WindowEvent type) w = Some (exec handleUserInteraction w)).
Proof.
  intros Hl. cbn [step]. rewrite (window_event_cases type w Hl).
  unfold listened.
  destruct (String.eqb "focus" type); [split; [discriminate | now left]|].
  destruct (String.eqb "blur" type);
    [split; [discriminate | right; now left]|].
  destruct (existsb _ interactionEvents);
    [split; [discriminate | right; now right]|].
  split; [reflexivity | discriminate].
Qed.

Lemma unlistened_events_ignored_witness :
  listening (mounted 0) /\ listened "keyup" = false /\
  step (WindowEvent "keyup") (mounted 0) = Some (mounted 0).
Proof.
  assert (Hl : listening (mounted 0)) by (split; reflexivity).
  split; [exact Hl|]. split; [reflexivity|].
  exact (proj1 (unlistened_events_ignored "keyup" (mounted 0) Hl) eq_refl).
Defined.

(** ** Bursts of interaction *)

Lemma handleUserInteraction_idem (w : world) :
  exec handleUserInteraction (exec handleUserInteraction w)
  = exec handleUserInteraction w.
Proof.
  rewrite (exec_handleUserInteraction w).
  destruct (negb (isActiveRef w) || (0 <? intervalIndexRef w)) eqn:E.
  - rewrite exec_handleUserInteraction, exec_resetToFastRendering.
    reflexivity.
  - now rewrite exec_handleUserInteraction, E.
Qed.

Lemma handleUserInteraction_listening (w : world) :
  listening w -> listening (exec handleUserInteraction w).
Proof.
  intros Hl. rewrite exec_handleUserInteraction.
  destruct (negb (isActiveRef w) || (0 <? intervalIndexRef w)); [|exact Hl].
  rewrite exec_resetToFastRendering. exact Hl.
Qed.

Lemma handleUserInteraction_redraws (w : world) :
  (redraws (exec handleUserInteraction w) <= S (redraws w))%nat.
Proof.
  rewrite exec_handleUserInteraction.
  destruct (negb (isActiveRef w) || (0 <? intervalIndexRef w)).
  - rewrite resetToFastRendering_redraws. lia.
  - lia.
Qed.

(** X3.  The activity handler run twice in a row does what it does once. So
    in a mounted world any burst of interaction events with no timer fire in
    between has the effect of the first event alone: at most one reset, at
    most one redraw, at most one timer re-armed. *)
Theorem interaction_burst_is_one (w : world) (types : list string) :
  listening w -> types <> [] ->
  Forall (fun type => In type interactionEvents) types ->
  exec handleUserInteraction (exec handleUserInteraction w)
    = exec handleUserInteraction w
  /\ run (map WindowEvent types) w = Some (exec handleUserInteraction w)
  /\ (redraws (exec handleUserInteraction w) <= S (redraws w))%nat.
Proof.
  intros Hl Hne Hall.
  split; [apply handleUserInteraction_idem|].
  split; [|apply handleUserInteraction_redraws].
  destruct types as [|type types]; [now elim Hne|]. clear Hne.
  inversion Hall as [|? ? Hin Hrest]; subst.
  cbn [map run]. rewrite (step_interaction type w Hl Hin).
  pose proof (handleUserInteraction_listening w Hl) as Hl1.
  pose proof (handleUserInteraction_idem w) as Hid.
  set (w1 := exec handleUserInteraction w) in *. clearbody w1.
  clear Hall Hin. induction Hrest as [|ty tys Hin _ IH]; [reflexivity|].
  cbn [map run]. rewrite (step_interaction ty w1 Hl1 Hin), Hid. exact IH.
Qed.

Lemma interaction_burst_is_one_witness :
  listening (mounted 0) /\
  run (map WindowEvent ["mousemove"; "mousemove"; "wheel"; "keydown"])
      (mounted 0)
  = Some (exec handleUserInteraction (mounted 0)).
Proof.
  assert (Hl : listening (mounted 0)) by (split; reflexivity).
  assert (Hne : ["mousemove"; "mousemove"; "wheel"; "keydown"] <> [])
    by discriminate.
  assert (Hall : Forall (fun type => In type interactionEvents)
                        ["mousemove"; "mousemove"; "wheel"; "keydown"])
    by (repeat constructor; cbn; tauto).
  pose proof (interaction_burst_is_one (mounted 0) _ Hl Hne Hall)
    as (_ & H & _).
  split; [exact Hl | exact H].
Defined.

(** ** The moves of the event loop *)

(** Every turn a reachable world can take is one of six moves. *)
Lemma step_cases (e : event) (w w' : world) :
  inv w -> step e w = Some w' ->
  (exists dt, 0 <= dt /\ w' = set_now (now w + dt) w)
  \/ (steady w /\ exists t, timers w = [t] /\ t_due t <= now w /\
        w' = exec timer_callback (set_timers [] w))
  \/ (steady w /\ w' = exec resetToFastRendering w)
  \/ w' = set_isActiveRef false w
  \/ w' = w
  \/ w' = exec effect_cleanup w.
Proof.
  intros (Hc & Hp & Hlt) Hs.
  destruct e; cbn [step] in Hs.
  - destruct (Z.leb_spec 0 dt); inversion Hs. left. now exists dt.
  - destruct Hlt as [[Hl (t & Hq & Hr & Hd)] | (_ & _ & Hq & _)];
      [|rewrite Hq in Hs; discriminate].
    rewrite Hq in Hs. cbn [find filter] in Hs.
    destruct (Pos.eqb_spec (t_handle t) h) as [<-|]; [|discriminate].
    destruct (Z.leb_spec (t_due t) (now w)); inversion Hs.
    rewrite other_handle_self.
    right; left. split.
    + split; [exact Hc|]. split; [exact Hp|]. split; [exact Hl|].
      now exists t.
    + now exists t.
  - destruct Hlt as [Hl | (Hw & _)].
    + assert (Hst : steady w) by (split; [exact Hc | split; assumption]).
      rewrite (window_event_cases type w (proj1 Hl)) in Hs.
      destruct (String.eqb "focus" type);
        [inversion Hs; right; right; left; now split|].
      destruct (String.eqb "blur" type);
        [inversion Hs; right; right; right; now left|].
      destruct (existsb _ interactionEvents);
        [|inversion Hs; right; right; right; right; now left].
      rewrite exec_handleUserInteraction in Hs.
      destruct (negb (isActiveRef w) || (0 <? intervalIndexRef w));
        inversion Hs.
      * right; right; left; now split.
      * right; right; right; right; now left.
    + rewrite Hw, dispatch_nil in Hs. inversion Hs.
      right; right; right; right; now left.
  - destruct Hlt as [Hl | (_ & Hb & _)].
    + assert (Hst : steady w) by (split; [exact Hc | split; assumption]).
      rewrite (bridge_event_cases name w (proj1 Hl)) in Hs.
      destruct (String.eqb reset_channel name); inversion Hs.
      * right; right; left; now split.
      * right; right; right; right; now left.
    + rewrite Hb, dispatch_nil in Hs. inversion Hs.
      right; right; right; right; now left.
  - inversion Hs. right; right; right; right; now right.
Qed.

(** Induction over the reachable worlds, move by move. *)
Lemma reachable_moves (P : world -> Prop) :
  (forall t0, P (mounted t0)) ->
  (forall w dt, inv w -> P w -> 0 <= dt -> P (set_now (now w + dt) w)) ->
  (forall w t, steady w -> P w -> timers w = [t] -> t_due t <= now w ->
               P (exec timer_callback (set_timers [] w))) ->
  (forall w, steady w -> P w -> P (exec resetToFastRendering w)) ->
  (forall w, inv w -> P w -> P (set_isActiveRef false w)) ->
  (forall w, inv w -> P w -> P (exec effect_cleanup w)) ->
  forall w, reachable w -> P w.
Proof.
  intros Hm He Hf Hr Hb Hu w Hreach.
  induction Hreach as [t0 | e w w' Hreach IH Hs]; [apply Hm|].
  pose proof (reachable_inv w Hreach) as Hi.
  destruct (step_cases e w w' Hi Hs)
    as [(dt & Hdt & ->) | [(Hst & t & Hq & Hdue & ->) | [(Hst & ->)
       | [-> | [-> | ->]]]]].
  - now apply He.
  - now apply (Hf w t).
  - now apply Hr.
  - now apply Hb.
  - exact IH.
  - now apply Hu.
Qed.

Lemma run_reachable (es : list event) :
  forall w w', reachable w -> run es w = Some w' -> reachable w'.
Proof.
  induction es as [|e es IH]; intros w w' Hr Hrun; cbn [run] in Hrun.
  - now inversion Hrun; subst.
  - destruct (step e w) as [w1|] eqn:Hs; [|discriminate].
    apply (IH w1 w'); [|exact Hrun]. now apply (reach_step e w w1).
Qed.

(** ** What the moves add to the log *)

Lemma counts_after (w w' : world) (es : list effect) :
  log w' = log w ++ es ->
  arms w' = (arms w + List.length (filter is_arm es))%nat
  /\ clears w' = (clears w + List.length (filter is_clear es))%nat
  /\ redraws w' = (redraws w + List.length (filter is_invalidate es))%nat.
Proof.
  unfold arms, clears, redraws. intros ->.
  rewrite !filter_app, !length_app. repeat split.
Qed.

Lemma fire_log (w : world) :
  log (exec timer_callback (set_timers [] w)) =
  log w ++ Invalidate :: release_calls w ++
    [SetTimeout (next_handle w)
                (currentInterval (advance (intervalIndexRef w)))].
Proof. rewrite exec_timer_callback. reflexivity. Qed.

Lemma fire_timers (w : world) :
  timers (exec timer_callback (set_timers [] w)) =
  [mkTimer (next_handle w) (currentInterval (advance (intervalIndexRef w)))
           (now w + currentInterval (advance (intervalIndexRef w)))].
Proof.
  rewrite exec_timer_callback. cbn [timers]. unfold released.
  cbn [timerRef timers set_timers]. now destruct (timerRef w).
Qed.

Lemma reset_log (w : world) :
  log (exec resetToFastRendering w) =
  log w ++ release_calls w ++ [SetTimeout (next_handle w) 16; Invalidate].
Proof. rewrite exec_resetToFastRendering. reflexivity. Qed.

Lemma reset_timers (w : world) :
  owned w -> timers (exec resetToFastRendering w) = [armed w 0].
Proof.
  intros Ho. rewrite exec_resetToFastRendering. cbn [timers].
  now rewrite (released_owned w Ho).
Qed.

Lemma cleanup_log (w : world) :
  log (exec effect_cleanup w) = log w ++ release_calls w.
Proof. apply effect_cleanup_refs. Qed.

Lemma cleanup_timers (w : world) :
  owned w -> timers (exec effect_cleanup w) = [].
Proof.
  intros Ho. destruct (effect_cleanup_refs w) as (_ & _ & _ & _ & E & _).
  now rewrite E, (released_owned w Ho).
Qed.





(** ** Delays and due times *)

Lemma currentInterval_in_table (i : Z) :
  In (currentInterval i) PROGRESSIVE_INTERVALS.
Proof.
  destruct (Z_lt_dec i 0) as [Hn|Hn].
  - unfold currentInterval, array_get.
    destruct (Z.ltb_spec i 0); [cbn; tauto | lia].
  - destruct (Z_lt_dec 7 i) as [Hb|Hb].
    + unfold currentInterval, array_get.
      destruct (Z.ltb_spec i 0); [lia|].
      assert (E : nth_error PROGRESSIVE_INTERVALS (Z.to_nat i) = None).
      { apply nth_error_None. cbn [List.length PROGRESSIVE_INTERVALS]. lia. }
      rewrite E. cbn. tauto.
    + assert (E : i = 0 \/ i = 1 \/ i = 2 \/ i = 3 \/ i = 4 \/ i = 5
                  \/ i = 6 \/ i = 7) by lia.
      repeat (destruct E as [-> | E]; [cbn; tauto|]).
      subst i. cbn. tauto.
Qed.

Lemma table_bounds (d : Z) : In d PROGRESSIVE_INTERVALS -> 16 <= d <= 1000.
Proof.
  intros H. repeat (destruct H as [<- | H]; [lia|]). destruct H.
Qed.

Lemma release_calls_table (w : world) : Forall table_delay (release_calls w).
Proof.
  unfold release_calls. destruct (timerRef w); repeat constructor.
Qed.

(** X6.  Every delay the hook has ever passed to [setTimeout] is an entry
    of the table, so between 16 and 1000 ms; and in every reachable world
    the pending timer was armed in the past with such a delay, so it is due
    at most one second from now: the hook never sleeps longer than the
    floor interval. *)
Theorem pending_timer_within_floor (w : world) :
  reachable w ->
  Forall table_delay (log w)
  /\ forall t, In t (timers w) ->
       In (t_delay t) PROGRESSIVE_INTERVALS
       /\ 16 <= t_delay t <= 1000
       /\ armed_at t <= now w
       /\ t_due t <= now w + 1000.
Proof.
  intros Hr.
  assert (H : Forall table_delay (log w)
              /\ forall t, In t (timers w) ->
                   In (t_delay t) PROGRESSIVE_INTERVALS /\ armed_at t <= now w).
  { revert w Hr. apply reachable_moves.
    - intros t0. split.
      + apply Forall_cons; [cbn; tauto | apply Forall_nil].
      + intros t [<- | []]. unfold armed_at. cbn. split; [tauto | lia].
    - intros w dt _ [Hlog Hq] Hdt. split; [exact Hlog|].
      intros t Hin. destruct (Hq t Hin) as [H1 H2].
      split; [exact H1|]. cbn [now set_now]. lia.
    - intros w t _ [Hlog _] _ _. split.
      + rewrite fire_log. apply Forall_app. split; [exact Hlog|].
        constructor; [exact I|]. apply Forall_app.
        split; [apply release_calls_table|].
        apply Forall_cons; [apply currentInterval_in_table | apply Forall_nil].
      + rewrite fire_timers. intros t' [<- | []].
        split; [apply currentInterval_in_table|].
        rewrite exec_timer_callback. unfold armed_at. cbn. lia.
    - intros w Hst [Hlog _]. pose proof Hst as (_ & _ & _ & Ha). split.
      + rewrite reset_log. apply Forall_app. split; [exact Hlog|].
        apply Forall_app. split; [apply release_calls_table|].
        apply Forall_cons; [cbn; tauto|].
        apply Forall_cons; [exact I | apply Forall_nil].
      + rewrite (reset_timers w (armed_one_owned w Ha)).
        intros t' [<- | []].
        split; [apply currentInterval_in_table|].
        rewrite exec_resetToFastRendering. unfold armed_at. cbn. lia.
    - intros w _ H. exact H.
    - intros w Hi [Hlog _]. split.
      + rewrite cleanup_log. apply Forall_app.
        split; [exact Hlog | apply release_calls_table].
      + rewrite (cleanup_timers w (inv_owned w Hi)). intros t []. }
  destruct H as [Hlog Hq]. split; [exact Hlog|].
  intros t Hin. destruct (Hq t Hin) as [H1 H2].
  pose proof (table_bounds _ H1) as Hb. unfold armed_at in H2.
  repeat split; try assumption; try lia.
Qed.

Lemma pending_timer_within_floor_witness :
  reachable (mounted 0) /\
  forall t, In t (timers (mounted 0)) -> t_due t <= now (mounted 0) + 1000.
Proof.
  assert (Hr : reachable (mounted 0)) by constructor.
  split; [exact Hr|]. intros t Hin.
  exact (proj2 (proj2 (proj2
           (proj2 (pending_timer_within_floor (mounted 0) Hr) t Hin)))).
Defined.

(** X7.  No turn of the event loop requests more than one redraw: from a
    reachable world a step only appends to the log, and what it appends
    holds at most one call to [invalidate]. *)
Theorem one_redraw_per_turn (e : event) (w w' : world) :
  reachable w -> step e w = Some w' ->
  (exists es, log w' = log w ++ es)
  /\ (redraws w <= redraws w' <= S (redraws w))%nat.
Proof.
  intros Hr Hs. pose proof (reachable_inv w Hr) as Hi.
  assert (H : exists es, log w' = log w ++ es
                         /\ (List.length (filter is_invalidate es) <= 1)%nat).
  { destruct (step_cases e w w' Hi Hs)
      as [(dt & Hdt & ->) | [(Hst & t & Hq & Hdue & ->) | [(Hst & ->)
         | [-> | [-> | ->]]]]].
    - exists []. split; [now rewrite app_nil_r | cbn; lia].
    - eexists. split; [apply fire_log|].
      cbn [filter is_invalidate]. rewrite release_calls_no_redraw. cbn. lia.
    - eexists. split; [apply reset_log|].
      rewrite release_calls_no_redraw. cbn. lia.
    - exists []. split; [now rewrite app_nil_r | cbn; lia].
    - exists []. split; [now rewrite app_nil_r | cbn; lia].
    - eexists. split; [apply cleanup_log|].
      unfold release_calls. destruct (timerRef w); cbn; lia. }
  destruct H as (es & Hlog & Hn).
  split; [now exists es|].
  destruct (counts_after w w' es Hlog) as (_ & _ & Er). lia.
Qed.

Lemma one_redraw_per_turn_witness :
  reachable (mounted 0) /\
  step (WindowEvent "focus") (mounted 0)
    = Some (exec resetToFastRendering (mounted 0)) /\
  (redraws (exec resetToFastRendering (mounted 0))
   <= S (redraws (mounted 0)))%nat.
Proof.
  assert (Hr : reachable (mounted 0)) by constructor.
  assert (Hs : step (WindowEvent "focus") (mounted 0)
               = Some (exec resetToFastRendering (mounted 0))).
  { apply step_focus. split; reflexivity. }
  split; [exact Hr|]. split; [exact Hs|].
  exact (proj2 (proj2 (one_redraw_per_turn _ _ _ Hr Hs))).
Defined.

(** ** The first redraw after mount *)

Lemma timer_turn_before_first_fire (t0 : Z) (e : event) (w w' : world) :
  timer_turn e = true -> step e w = Some w' ->
  (redraws w = 0%nat /\ exists t, timers w = [t] /\ t_due t = t0 + 16)
  \/ t0 + 16 <= now w ->
  (redraws w' = 0%nat /\ exists t, timers w' = [t] /\ t_due t = t0 + 16)
  \/ t0 + 16 <= now w'.
Proof.
  destruct e; try discriminate; intros _ Hs Hq; cbn [step] in Hs.
  - destruct (Z.leb_spec 0 dt); inversion Hs; subst w'.
    destruct Hq as [Hq | Hq]; [left; exact Hq|].
    right. cbn [now set_now]. lia.
  - right.
    destruct (find _ (timers w)) as [t|] eqn:Hf; [|discriminate].
    destruct (Z.leb_spec (t_due t) (now w)); inversion Hs; subst w'.
    rewrite exec_timer_callback. cbn [now set_timers].
    destruct Hq as [(_ & t1 & Hq & Hdue) | Hq]; [|exact Hq].
    rewrite Hq in Hf. cbn [find] in Hf.
    destruct (Pos.eqb (t_handle t1) h); inversion Hf; subst. lia.
Qed.

(** X4.  Mounting requests no redraw.  The effect arms its first timer with
    the first interval of the table, and as long as no signal arrives (time
    passes, timers fire) no redraw is requested before 16 ms have passed
    since the mount. *)
Theorem no_redraw_before_first_interval (t0 : Z) (es : list event)
  (w' : world) :
  forallb timer_turn es = true -> run es (mounted t0) = Some w' ->
  redraws (mounted t0) = 0%nat
  /\ map pending_view (timers (mounted t0)) = [(16, t0 + 16)]
  /\ ((0 < redraws w')%nat -> t0 + 16 <= now w').
Proof.
  intros Hall Hrun. split; [reflexivity|]. split; [reflexivity|].
  assert (H : (redraws w' = 0%nat
               /\ exists t, timers w' = [t] /\ t_due t = t0 + 16)
              \/ t0 + 16 <= now w').
  { assert (H0 : (redraws (mounted t0) = 0%nat
                  /\ exists t, timers (mounted t0) = [t] /\ t_due t = t0 + 16)
                 \/ t0 + 16 <= now (mounted t0)).
    { left. split; [reflexivity|]. eexists. split; reflexivity. }
    revert Hall Hrun H0. generalize (mounted t0) as w.
    induction es as [|e es IH]; intros w Hall Hrun H0; cbn [run] in Hrun.
    - inversion Hrun; subst. exact H0.
    - cbn [forallb] in Hall. apply andb_prop in Hall as [He Hes].
      destruct (step e w) as [w1|] eqn:Hs; [|discriminate].
      apply (IH w1 Hes Hrun).
      now apply (timer_turn_before_first_fire t0 e w w1). }
  intros Hpos. destruct H as [[H _] | H]; [lia | exact H].
Qed.

Lemma no_redraw_before_first_interval_witness :
  exists w',
    run [Elapse 20; TimerFire 1%positive] (mounted 5) = Some w'
    /\ redraws w' = 1%nat /\ 5 + 16 <= now w'.
Proof.
  eexists. split; [vm_compute; reflexivity|]. split; [reflexivity|].
  refine (proj2 (proj2 (no_redraw_before_first_interval 5
            [Elapse 20; TimerFire 1%positive] _ eq_refl _)) _).
  - vm_compute. reflexivity.
  - vm_compute. reflexivity.
Defined.

(** ** The clock along a quiet run *)

Lemma advance_min (i : Z) :
  0 <= i <= last_index -> advance i = Z.min (i + 1) last_index.
Proof.
  intros H. unfold advance.
  destruct (Z.ltb_spec i last_index); lia.
Qed.

Lemma run_quiet_clock (qs : list quiet) :
  forall (w : world) (t : timer),
    steady w -> timers w = [t] -> armed_at t <= now w <= t_due t ->
    exists ds w' t',
      run_quiet qs w = Some (ds, w')
      /\ steady w' /\ timers w' = [t']
      /\ armed_at t' <= now w' <= t_due t'
      /\ armed_at t' = armed_at t + sum_delays ds
      /\ armed_at t <= armed_at t'
      /\ now w' = Z.max (now w) (armed_at t')
      /\ intervalIndexRef w' =
           Z.min (intervalIndexRef w + Z.of_nat (fires qs)) last_index.
Proof.
  induction qs as [|q qs IH]; intros w t Hs Hq Hnow.
  - exists [], w, t.
    pose proof Hs as (Hc & _). unfold cursor_ok in Hc.
    split; [reflexivity|]. split; [exact Hs|]. split; [exact Hq|].
    split; [exact Hnow|].
    unfold fires. cbn [sum_delays fold_right filter List.length Z.of_nat].
    repeat split; lia.
  - pose proof Hs as (Hc & Hp & Hl & (t0 & Hq0 & Hr & Hd)).
    rewrite Hq in Hq0. inversion Hq0; subst t0. clear Hq0.
    destruct q; cbn [run_quiet].
    + rewrite (await_fire_armed w t Hq).
      set (w0 := set_now (now w + Z.max 0 (t_due t - now w)) w).
      assert (Hs1 : steady (exec timer_callback (set_timers [] w0))).
      { apply timer_callback_steady; try assumption. now left. }
      pose proof (fire_timers w0) as Hq1.
      set (t1 := mkTimer (next_handle w0)
                   (currentInterval (advance (intervalIndexRef w0)))
                   (now w0 + currentInterval (advance (intervalIndexRef w0))))
        in Hq1.
      assert (Hnow0 : now w0 = t_due t) by (subst w0; cbn [now set_now]; lia).
      assert (Hnow1 : now (exec timer_callback (set_timers [] w0)) = t_due t).
      { rewrite exec_timer_callback. exact Hnow0. }
      pose proof (table_bounds _
                    (currentInterval_in_table (advance (intervalIndexRef w0))))
        as Hb.
      pose proof (table_bounds _
                    (currentInterval_in_table (intervalIndexRef w))) as Hb0.
      rewrite <- Hd in Hb0.
      assert (Hat : armed_at t1 = armed_at t + t_delay t).
      { unfold armed_at, t1. cbn [t_due t_delay]. lia. }
      assert (Hdue1 : t_due t1 = t_due t
                      + currentInterval (advance (intervalIndexRef w0))).
      { unfold t1. cbn [t_due]. lia. }
      destruct (IH _ t1 Hs1 Hq1) as (ds & w' & t' & Hrun & Hs' & Hq' & Hn'
                                     & Ha' & Hle' & Hmax' & Hi').
      { rewrite Hnow1. unfold armed_at in *. lia. }
      exists (t_delay t :: ds), w', t'. rewrite Hrun.
      split; [reflexivity|]. split; [exact Hs'|]. split; [exact Hq'|].
      split; [exact Hn'|].
      split; [|split; [|split]].
      * cbn [sum_delays fold_right]. fold (sum_delays ds). lia.
      * lia.
      * rewrite Hmax', Hnow1. unfold armed_at in *. lia.
      * rewrite Hi'. rewrite exec_timer_callback. cbn [intervalIndexRef].
        change (intervalIndexRef (set_timers [] w0))
          with (intervalIndexRef w).
        rewrite (advance_min _ Hc).
        unfold fires. cbn [filter List.length]. fold (fires qs).
        unfold cursor_ok in Hc. lia.
    + rewrite (step_blur w Hl).
      assert (Hs1 : steady (set_isActiveRef false w)) by (destruct w; exact Hs).
      destruct (IH _ t Hs1 Hq Hnow) as (ds & w' & t' & Hrun & Hrest).
      exists ds, w', t'. split; [exact Hrun | exact Hrest].
Qed.

(** X8.  On a host that fires each timer the instant it is due, a quiet run
    keeps the intervals back to back: the timer pending at the end was armed
    exactly the sum of the fired delays after the one pending at the start,
    the clock stands at that instant once a timer has fired, and the cursor
    has moved up by the number of fires, capped at the last index.  Left
    alone after mount, the hook is at the 1000 ms floor after seven fires,
    1063 ms after the mount. *)
Theorem quiet_run_clock :
  (forall (w : world) (t : timer) (qs : list quiet),
     steady w -> timers w = [t] -> armed_at t <= now w <= t_due t ->
     exists ds w' t',
       run_quiet qs w = Some (ds, w')
       /\ timers w' = [t']
       /\ armed_at t' = armed_at t + sum_delays ds
       /\ now w' = Z.max (now w) (armed_at t')
       /\ intervalIndexRef w' =
            Z.min (intervalIndexRef w + Z.of_nat (fires qs)) last_index)
  /\ (forall t0, exists w' t',
        run_quiet (repeat QFire 7) (mounted t0)
          = Some ([16; 16; 33; 66; 133; 266; 533], w')
        /\ now w' = t0 + 1063
        /\ intervalIndexRef w' = last_index
        /\ timers w' = [t'] /\ t_delay t' = 1000 /\ t_due t' = t0 + 2063).
Proof.
  split.
  - intros w t qs Hs Hq Hnow.
    destruct (run_quiet_clock qs w t Hs Hq Hnow)
      as (ds & w' & t' & H1 & _ & H3 & _ & H5 & _ & H7 & H8).
    exists ds, w', t'. repeat split; assumption.
  - intros t0.
    pose proof (mounted_steady t0) as Hs.
    assert (Hq : timers (mounted t0) = [mkTimer 1%positive 16 (t0 + 16)])
      by reflexivity.
    assert (Hi : intervalIndexRef (mounted t0) = Z.of_nat 0) by reflexivity.
    assert (Hn : now (mounted t0) = t0) by reflexivity.
    destruct (run_quiet_clock (repeat QFire 7) _ _ Hs Hq)
      as (ds & w' & t' & H1 & H2 & H3 & H4 & H5 & _ & H7 & H8).
    { rewrite Hn. unfold armed_at. cbn [t_due t_delay]. lia. }
    destruct (run_quiet_delays (repeat QFire 7) _ 0%nat Hs Hi)
      as (w'' & R & _); [lia|].
    rewrite H1 in R. inversion R as [[Eds Ew]]. clear R.
    vm_compute in Eds. subst ds.
    pose proof H2 as (_ & _ & _ & (t1 & Hq1 & _ & Hd1)).
    rewrite H3 in Hq1. inversion Hq1; subst t1. clear Hq1.
    unfold armed_at, sum_delays in H5.
    cbn [t_due t_delay fold_right] in H5.
    rewrite Hn in H7.
    assert (Hc : intervalIndexRef w' = last_index).
    { rewrite H8, Hi. reflexivity. }
    rewrite Hc in Hd1. change (currentInterval last_index) with 1000 in Hd1.
    exists w', t'. unfold armed_at in H7, H4.
    split; [exact H1|]. split; [lia|]. split; [exact Hc|].
    split; [exact H3|]. split; [exact Hd1 | lia].
Qed.

Lemma quiet_run_clock_witness :
  steady (mounted 0) /\
  exists ds w' t',
    run_quiet [QFire; QBlur; QFire; QFire] (mounted 0) = Some (ds, w')
    /\ timers w' = [t']
    /\ armed_at t' = 0 + sum_delays ds.
Proof.
  split; [exact (mounted_steady 0)|].
  assert (Hq : timers (mounted 0) = [mkTimer 1%positive 16 16])
    by reflexivity.
  assert (Hn : armed_at (mkTimer 1%positive 16 16) <= now (mounted 0)
               <= t_due (mkTimer 1%positive 16 16)).
  { unfold armed_at. cbn. lia. }
  destruct (proj1 quiet_run_clock (mounted 0) _ [QFire; QBlur; QFire; QFire]
              (mounted_steady 0) Hq Hn)
    as (ds & w' & t' & H1 & H2 & H3 & _).
  exists ds, w', t'. split; [exact H1|]. split; [exact H2 | exact H3].
Defined.

(** ** Cleanup and mounting again *)

Lemma filter_filter_and {A} (f g : A -> bool) (l : list A) :
  filter f (filter g l) = filter (fun x => g x && f x) l.
Proof.
  induction l as [|x l IH]; [reflexivity|].
  cbn [filter]. destruct (g x); cbn [filter andb]; now rewrite IH.
Qed.


(** Taking listeners off one after the other leaves those that match none. *)
Lemma remove_each (rs : list (string * callback)) :
  forall l,
    fold_left
      (fun acc r => filter (fun x => negb (same_listener (fst r) (snd r) x)) acc)
      rs l
    = filter
        (fun x => negb (existsb (fun r => same_listener (fst r) (snd r) x) rs))
        l.
Proof.
  induction rs as [|r rs IH]; intros l.
  - cbn. induction l as [|x l IHl]; [reflexivity|]. cbn. now rewrite <- IHl.
  - cbn [fold_left existsb]. rewrite IH, filter_filter_and.
    apply filter_ext. intros x. now rewrite negb_orb.
Qed.

Lemma exec_effect_cleanup (w : world) :
  exec effect_cleanup w =
  mkWorld None (intervalIndexRef w) (isActiveRef w) (now w) (next_handle w)
          (released w)
          (filter (fun l => negb (hook_listener l)) (window_listeners w))
          (filter (fun l => negb (hook_subscription l)) (bridge_listeners w))
          (log w ++ release_calls w) (peak w).
Proof.
  unfold effect_cleanup. rewrite exec_bind, exec_clearTimer.
  unfold hook_listener. rewrite <- remove_each.
  reflexivity.
Qed.

Lemma effect_cleanup_redraws (w : world) :
  redraws (exec effect_cleanup w) = redraws w.
Proof.
  unfold redraws. rewrite cleanup_log, filter_app.
  unfold release_calls. destruct (timerRef w); cbn [filter is_invalidate];
    now rewrite app_nil_r.
Qed.


Lemma exec_effect_setup_detached (w : world) :
  window_listeners w = [] -> bridge_listeners w = [] ->
  exec effect_setup w =
  mkWorld (Some (next_handle w)) (intervalIndexRef w) (isActiveRef w) (now w)
          (Pos.succ (next_handle w))
          (released w ++ [armed w (intervalIndexRef w)])
          (window_listeners (mounted 0)) (bridge_listeners (mounted 0))
          (log w ++ release_calls w ++
             [SetTimeout (next_handle w) (currentInterval (intervalIndexRef w))])
          (Nat.max (peak w)
                   (List.length (released w ++ [armed w (intervalIndexRef w)]))).
Proof.
  intros Hw Hb. unfold effect_setup.
  rewrite exec_bind, exec_scheduleNextRender, Hw, Hb, mounted_eq.
  reflexivity.
Qed.

Lemma steady_inv (w : world) : steady w -> inv w.
Proof.
  intros (Hc & Hp & Hl). split; [exact Hc|]. split; [exact Hp | now left].
Qed.

Lemma inv_cleanup_detaches (w : world) :
  inv w ->
  filter (fun l => negb (hook_listener l)) (window_listeners w) = []
  /\ filter (fun l => negb (hook_subscription l)) (bridge_listeners w) = [].
Proof.
  intros (_ & _ & [[[Hw Hb] _] | (Hw & Hb & _)]); rewrite Hw, Hb.
  - rewrite mounted_eq. cbn [window_listeners bridge_listeners].
    split; vm_compute; reflexivity.
  - split; reflexivity.
Qed.

Lemma remount_eq (w : world) :
  inv w ->
  exec effect_setup (exec effect_cleanup w) =
  mkWorld (Some (next_handle w)) (intervalIndexRef w) (isActiveRef w) (now w)
          (Pos.succ (next_handle w))
          [armed w (intervalIndexRef w)]
          (window_listeners (mounted 0)) (bridge_listeners (mounted 0))
          (log w ++ release_calls w ++
             [SetTimeout (next_handle w) (currentInterval (intervalIndexRef w))])
          (Nat.max (peak w) 1).
Proof.
  intros Hi. destruct (inv_cleanup_detaches w Hi) as [Hw Hb].
  pose proof (released_owned w (inv_owned w Hi)) as Hrel.
  rewrite exec_effect_cleanup, Hw, Hb, Hrel.
  rewrite exec_effect_setup_detached by reflexivity.
  unfold released, release_calls, armed.
  cbn [timerRef intervalIndexRef isActiveRef now next_handle timers log peak
       app List.length].
  rewrite <- app_assoc. reflexivity.
Qed.

(** X10.  The effect starts with [scheduleNextRender], not with a reset, and
    the refs outlive it.  So when React runs the cleanup and then the effect
    again, the hook is live again with the cursor and the activity flag it
    had: the timer it arms has the interval of that cursor, not the first
    one, and no redraw is requested.  A cleanup after that leaves nothing
    behind once more. *)
Theorem remount_keeps_cursor (w : world) :
  reachable w ->
  let w0 := exec effect_cleanup w in
  let w1 := exec effect_setup w0 in
  let w2 := exec effect_cleanup w1 in
  steady w1
  /\ intervalIndexRef w1 = intervalIndexRef w
  /\ isActiveRef w1 = isActiveRef w
  /\ redraws w1 = redraws w
  /\ timers w1 = [armed w (intervalIndexRef w)]
  /\ t_delay (armed w (intervalIndexRef w))
       = currentInterval (intervalIndexRef w)
  /\ torn_down w2
  /\ redraws w2 = redraws w.
Proof.
  intros Hr w0 w1 w2. subst w2 w1 w0.
  pose proof (reachable_inv w Hr) as Hi.
  pose proof (remount_eq w Hi) as E.
  assert (Hs1 : steady (exec effect_setup (exec effect_cleanup w))).
  { rewrite E. destruct Hi as (Hc & Hp & _).
    split; [exact Hc|]. split; [cbn [peak]; lia|]. split.
    - split; rewrite mounted_eq; reflexivity.
    - exists (armed w (intervalIndexRef w)).
      split; [reflexivity|]. split; reflexivity. }
  assert (Hred : redraws (exec effect_setup (exec effect_cleanup w))
                 = redraws w).
  { rewrite E. unfold redraws. cbn [log].
    rewrite filter_app, release_calls_no_redraw. cbn [filter is_invalidate].
    now rewrite app_nil_r. }
  split; [exact Hs1|].
  split; [now rewrite E|]. split; [now rewrite E|].
  split; [exact Hred|]. split; [now rewrite E|]. split; [reflexivity|].
  split.
  - apply effect_cleanup_torn_down. now apply steady_inv.
  - now rewrite effect_cleanup_redraws.
Qed.

Lemma remount_keeps_cursor_witness :
  exists w,
    run [Elapse 16; TimerFire 1%positive; Elapse 16; TimerFire 2%positive;
         Elapse 33; TimerFire 3%positive] (mounted 0) = Some w
    /\ reachable w
    /\ intervalIndexRef w = 3
    /\ map t_delay (timers (exec effect_setup (exec effect_cleanup w))) = [66].
Proof.
  eexists. split; [vm_compute; reflexivity|].
  match goal with |- reachable ?w /\ _ => assert (Hr : reachable w) end.
  { eapply run_reachable; [apply (reach_mounted 0)|].
    instantiate (1 := [Elapse 16; TimerFire 1%positive; Elapse 16;
                       TimerFire 2%positive; Elapse 33; TimerFire 3%positive]).
    vm_compute. reflexivity. }
  split; [exact Hr|]. split; [reflexivity|].
  pose proof (remount_keeps_cursor _ Hr) as H. cbv zeta in H.
  destruct H as (_ & _ & _ & _ & Ht & _).
  rewrite Ht. reflexivity.
Defined.

(** ** Activity brings the fast cadence back *)

Lemma activity_step (e : event) (w : world) :
  steady w -> activity_signal e = true ->
  step e w = Some (exec resetToFastRendering w)
  \/ step e w = Some (exec handleUserInteraction w).
Proof.
  intros (_ & _ & Hl & _) Ha. destruct e; try discriminate; cbn [step].
  - rewrite (window_event_cases type w Hl). cbn [activity_signal] in Ha.
    destruct (String.eqb "focus" type); [now left|].
    cbn [orb] in Ha. rewrite Ha.
    destruct (String.eqb "blur" type) eqn:Eb; [|now right].
    apply String.eqb_eq in Eb. subst type. discriminate Ha.
  - rewrite (bridge_event_cases name w Hl). cbn [activity_signal] in Ha.
    rewrite Ha. now left.
Qed.

Lemma handleUserInteraction_full_speed (w : world) :
  cursor_ok w ->
  intervalIndexRef (exec handleUserInteraction w) = 0
  /\ isActiveRef (exec handleUserInteraction w) = true.
Proof.
  intros [Hlo Hhi]. rewrite exec_handleUserInteraction.
  destruct (isActiveRef w) eqn:Ea; cbn [negb orb].
  - destruct (Z.ltb_spec 0 (intervalIndexRef w)).
    + rewrite exec_resetToFastRendering. split; reflexivity.
    + split; [lia | exact Ea].
  - rewrite exec_resetToFastRendering. split; reflexivity.
Qed.

(** X11.  In a live world every activity signal (focus, an interaction
    event, a message on the reset channel) leaves the cursor at 0 and the
    activity flag true with one timer pending, whether it had to reset or
    not; so the next two timers to fire were both armed with 16 ms, however
    far the hook had slowed down. *)
Theorem activity_restores_full_speed (e : event) (w : world) :
  steady w -> activity_signal e = true ->
  exists w1,
    step e w = Some w1
    /\ steady w1
    /\ intervalIndexRef w1 = 0
    /\ isActiveRef w1 = true
    /\ (redraws w1 <= S (redraws w))%nat
    /\ exists w3, run_quiet [QFire; QFire] w1 = Some ([16; 16], w3).
Proof.
  intros Hs Ha.
  assert (H : exists w1, step e w = Some w1 /\ steady w1
                         /\ intervalIndexRef w1 = 0 /\ isActiveRef w1 = true
                         /\ (redraws w1 <= S (redraws w))%nat).
  { destruct (activity_step e w Hs Ha) as [E | E]; rewrite E; eexists;
      (split; [reflexivity|]).
    - split; [now apply resetToFastRendering_steady|].
      rewrite resetToFastRendering_redraws, exec_resetToFastRendering.
      repeat split. lia.
    - split; [exact (run_callback_steady HandleUserInteraction w Hs)|].
      destruct (handleUserInteraction_full_speed w (proj1 Hs)) as [E1 E2].
      split; [exact E1|]. split; [exact E2|].
      apply handleUserInteraction_redraws. }
  destruct H as (w1 & E & Hs1 & Hi & Hf & Hn).
  exists w1. repeat (split; [assumption|]).
  destruct (run_quiet_delays [QFire; QFire] w1 0%nat Hs1 Hi) as (w3 & R & _);
    [lia|].
  exists w3. exact R.
Qed.

Lemma activity_restores_full_speed_witness :
  exists w,
    run [Elapse 16; TimerFire 1%positive; Elapse 16; TimerFire 2%positive;
         Elapse 33; TimerFire 3%positive] (mounted 0) = Some w
    /\ steady w /\ intervalIndexRef w = 3
    /\ exists w1, step (WindowEvent "wheel") w = Some w1
                  /\ intervalIndexRef w1 = 0.
Proof.
  eexists. split; [vm_compute; reflexivity|].
  match goal with |- steady ?w /\ _ => assert (Hs : steady w) end.
  { split; [split; cbn; lia|]. split; [cbn; lia|]. split.
    - split; rewrite mounted_eq; reflexivity.
    - eexists. split; [reflexivity|]. split; reflexivity. }
  split; [exact Hs|]. split; [reflexivity|].
  destruct (activity_restores_full_speed (WindowEvent "wheel") _ Hs eq_refl)
    as (w1 & E & _ & Hi & _).
  exists w1. split; [exact E | exact Hi].
Defined.
